(** * User schemas and user service: a shallow embedding

    The development follows the two modules of the application:
    - [app/schemas/user_schemas.py]: the URL validator and the pydantic
      models ([UserBase], [UserCreate], the two [UserUpdate] classes,
      [UserResponse]);
    - [app/services/user_service.py]: the [UserService] class methods over an
      SQLAlchemy session.

    Python values are a small inductive universe, Python [str] is a list of
    code points, exceptions are results of a state-and-exception monad, and
    the session is an explicit store (committed rows, pending unit of work,
    schedule of database faults, trace of the calls it received). *)

From Stdlib Require Import String Ascii.
From stdpp Require Import gmap strings list fin_maps pretty.

Open Scope string_scope.
Open Scope list_scope.

(** ** Python strings and values *)

(** A Python [str] is a sequence of Unicode code points. *)
Abbreviation pystr := (list N).

(** An ASCII literal of the source, as a Python [str]. *)
Definition py (s : string) : pystr :=
  List.map N_of_ascii (list_ascii_of_string s).

(** Modelled from the spec: the enum [UserRole] is defined in
    [app/models/user_model.py], which is not part of the sources; the data
    model of the spec describes it as a fixed set including USER,
    AUTHENTICATED and ADMIN-like values. *)
Inductive UserRole := USER | AUTHENTICATED | ADMIN.

Inductive value :=
| VNone
| VBool (b : bool)
| VInt (z : Z)
| VStr (s : pystr)
| VEnum (r : UserRole)
| VList (l : list value).

(** Python truth value testing ([bool(v)]): [None], [False], [0], the empty
    string and the empty list are falsy; enum members are truthy. *)
Definition truthy (v : value) : bool :=
  match v with
  | VNone => false
  | VBool b => b
  | VInt z => negb (z =? 0)%Z
  | VStr s => match s with [] => false | _ => true end
  | VEnum _ => true
  | VList l => match l with [] => false | _ => true end
  end.

(** [a or b] on already evaluated operands. *)
Definition py_or (a b : value) : value := if truthy a then a else b.

(** ** Exceptions *)

(** The subclasses of [Exception] that the two modules raise or catch; the
    argument is the message, [str(e)]. *)
Inductive exn :=
| ValueError (msg : string)
| AttributeError (msg : string)
| ValidationError (msg : string)
| TypeError (msg : string)
| SQLAlchemyError (msg : string)
| RuntimeError (msg : string).

Definition exn_str (e : exn) : string :=
  match e with
  | ValueError m | AttributeError m | ValidationError m | TypeError m
  | SQLAlchemyError m | RuntimeError m => m
  end.

(** [isinstance(e, SQLAlchemyError)] *)
Definition is_SQLAlchemyError (e : exn) : bool :=
  match e with SQLAlchemyError _ => true | _ => false end.

Inductive result (A : Type) :=
| Ok (a : A)
| Raise (e : exn).
Arguments Ok {A} a.
Arguments Raise {A} e.

(** ** Regular expressions, as [re] compiles and matches them *)

Module Re.

(** Members of a character set: a literal or the category [\s]. *)
Inductive set_item :=
| Chr (c : N)
| Space.

(** One-character matchers: a literal, [.], and [[...]] / [[^...]]. *)
Inductive atom :=
| Literal (c : N)
| AnyChar
| InSet (negate : bool) (items : list set_item).

(** Pattern items: the assertions [^] and [$], one atom, and a greedy
    repetition [atom{lo,hi}] ([?] is {0,1}, [*] is {0,}, [+] is {1,}). *)
Inductive node :=
| AtBeginning
| AtEnd
| One (a : atom)
| MaxRepeat (lo : nat) (hi : option nat) (a : atom).

(** [\s] on [str] patterns: the code points for which [str.isspace] holds. *)
Definition is_space (c : N) : bool :=
  ((9 <=? c) && (c <=? 13) || (28 <=? c) && (c <=? 32)
   || (c =? 133) || (c =? 160) || (c =? 5760)
   || (8192 <=? c) && (c <=? 8202)
   || (c =? 8232) || (c =? 8233) || (c =? 8239) || (c =? 8287)
   || (c =? 12288))%N.

Definition newline : N := 10.

Definition item_matches (i : set_item) (c : N) : bool :=
  match i with
  | Chr d => (c =? d)%N
  | Space => is_space c
  end.

Definition atom_matches (a : atom) (c : N) : bool :=
  match a with
  | Literal d => (c =? d)%N
  | AnyChar => negb (c =? newline)%N
  | InSet negate items =>
      xorb negate (existsb (fun i => item_matches i c) items)
  end.

(** *** Parsing a pattern string

    A single pass over the characters of the pattern; the state says whether
    the scanner is at top level, after a backslash, or inside a set. *)

Inductive mode :=
| Top
| TopEscape
| SetStart
| InClass (negate : bool) (items : list set_item)
| InClassEscape (negate : bool) (items : list set_item).

Record pstate := { nodes_rev : list node; pmode : mode; failed : bool }.

Definition push (st : pstate) (n : node) : pstate :=
  {| nodes_rev := n :: nodes_rev st; pmode := Top; failed := failed st |}.

Definition set_mode (st : pstate) (m : mode) : pstate :=
  {| nodes_rev := nodes_rev st; pmode := m; failed := failed st |}.

Definition fail (st : pstate) : pstate :=
  {| nodes_rev := nodes_rev st; pmode := pmode st; failed := true |}.

(** A postfix operator applies to the atom just read. *)
Definition quantify (st : pstate) (lo : nat) (hi : option nat) : pstate :=
  match nodes_rev st with
  | One a :: rest =>
      {| nodes_rev := MaxRepeat lo hi a :: rest; pmode := Top;
         failed := failed st |}
  | _ => fail st
  end.

Definition escape_item (c : ascii) : option set_item :=
  if Ascii.eqb c "s" then Some Space
  else if (Ascii.eqb c "/" || Ascii.eqb c "." || Ascii.eqb c "$"
           || Ascii.eqb c "?" || Ascii.eqb c "#" || Ascii.eqb c "-"
           || Ascii.eqb c "^" || Ascii.eqb c "[" || Ascii.eqb c "]"
           || Ascii.eqb c "*" || Ascii.eqb c "+" || Ascii.eqb c ":"
           || Ascii.eqb c "\")%char
  then Some (Chr (N_of_ascii c))
  else None.

Definition step (st : pstate) (c : ascii) : pstate :=
  match pmode st with
  | Top =>
      if Ascii.eqb c "^" then push st AtBeginning
      else if Ascii.eqb c "$" then push st AtEnd
      else if Ascii.eqb c "." then push st (One AnyChar)
      else if Ascii.eqb c "?" then quantify st 0 (Some 1)
      else if Ascii.eqb c "*" then quantify st 0 None
      else if Ascii.eqb c "+" then quantify st 1 None
      else if Ascii.eqb c "\" then set_mode st TopEscape
      else if Ascii.eqb c "[" then set_mode st SetStart
      else if (Ascii.eqb c "]" || Ascii.eqb c "(" || Ascii.eqb c ")"
               || Ascii.eqb c "{" || Ascii.eqb c "}" || Ascii.eqb c "|")%char
      then fail st
      else push st (One (Literal (N_of_ascii c)))
  | TopEscape =>
      match escape_item c with
      | Some Space => push st (One (InSet false [Space]))
      | Some (Chr d) => push st (One (Literal d))
      | None => fail st
      end
  | SetStart =>
      if Ascii.eqb c "^" then set_mode st (InClass true [])
      else if Ascii.eqb c "\" then set_mode st (InClassEscape false [])
      else set_mode st (InClass false [Chr (N_of_ascii c)])
  | InClass negate items =>
      if Ascii.eqb c "]" then
        match items with
        | [] => set_mode st (InClass negate [Chr (N_of_ascii c)])
        | _ => push st (One (InSet negate items))
        end
      else if Ascii.eqb c "\" then set_mode st (InClassEscape negate items)
      else if Ascii.eqb c "-" then fail st
      else set_mode st (InClass negate (items ++ [Chr (N_of_ascii c)]))
  | InClassEscape negate items =>
      match escape_item c with
      | Some i => set_mode st (InClass negate (items ++ [i]))
      | None => fail st
      end
  end.

(** [re.compile] on the subset of the syntax the schemas use; [None] stands
    for a pattern outside that subset. *)
Definition compile (pattern : string) : option (list node) :=
  let st := fold_left step (list_ascii_of_string pattern)
              {| nodes_rev := []; pmode := Top; failed := false |} in
  match pmode st, failed st with
  | Top, false => Some (rev (nodes_rev st))
  | _, _ => None
  end.

(** *** Matching

    [$] (without [re.MULTILINE]) holds at the end of the string and just
    before a newline that ends the string. *)
Definition at_end (s : pystr) : bool :=
  match s with
  | [] => true
  | [c] => (c =? newline)%N
  | _ => false
  end.

Definition below (n : nat) (hi : option nat) : bool :=
  match hi with
  | None => true
  | Some h => (n <? h)%nat
  end.

(** The loop of a greedy repetition: [n] characters taken so far; it first
    tries one more character, then the continuation [k] (the rest of the
    pattern). *)
Fixpoint repeat_loop (k : nat -> pystr -> bool) (a : atom) (lo : nat)
    (hi : option nat) (n pos : nat) (s : pystr) : bool :=
  match s with
  | c :: s' =>
      (below n hi && atom_matches a c
       && repeat_loop k a lo hi (S n) (S pos) s')
      || ((lo <=? n)%nat && k pos s)
  | [] => (lo <=? n)%nat && k pos s
  end.

(** Backtracking matcher: [pos] is the number of characters consumed so
    far, [s] the rest of the subject; the result says whether the items can
    match a prefix of [s]. *)
Fixpoint match_nodes (p : list node) (pos : nat) (s : pystr) : bool :=
  match p with
  | [] => true
  | AtBeginning :: p' => (pos =? 0)%nat && match_nodes p' pos s
  | AtEnd :: p' => at_end s && match_nodes p' pos s
  | One a :: p' =>
      match s with
      | c :: s' => atom_matches a c && match_nodes p' (S pos) s'
      | [] => false
      end
  | MaxRepeat lo hi a :: p' => repeat_loop (match_nodes p') a lo hi 0 pos s
  end.

(** [re.match(pattern, s)] as a truth value. *)
Definition re_match (pattern : string) (s : pystr) : option bool :=
  match compile pattern with
  | Some p => Some (match_nodes p 0 s)
  | None => None
  end.

(** *** What it means for a subject to match: the declarative reading

    [Matches p pos s] : the items [p] match some prefix of [s], where [pos]
    characters precede [s] in the subject. *)
Definition cap_ok (hi : option nat) (n : nat) : Prop :=
  match hi with None => True | Some h => (n <= h)%nat end.

Definition in_bounds (lo : nat) (hi : option nat) (n : nat) : Prop :=
  (lo <= n)%nat /\ cap_ok hi n.

Inductive Matches : list node -> nat -> pystr -> Prop :=
| M_nil pos s : Matches [] pos s
| M_bol p s : Matches p 0 s -> Matches (AtBeginning :: p) 0 s
| M_eol p pos s :
    s = [] \/ s = [newline] -> Matches p pos s -> Matches (AtEnd :: p) pos s
| M_one a p pos c s :
    atom_matches a c = true -> Matches p (S pos) s ->
    Matches (One a :: p) pos (c :: s)
| M_repeat lo hi a p pos cs s :
    Forall (fun c => atom_matches a c = true) cs ->
    in_bounds lo hi (length cs) ->
    Matches p (pos + length cs) s ->
    Matches (MaxRepeat lo hi a :: p) pos (cs ++ s).

End Re.

(** ** [user_schemas.py]: the URL validator *)

Definition url_regex : string := "^https?:\/\/[^\s/$.?#].[^\s]*$".

(** The compiled form of [url_regex] (see [url_regex_compiles]). *)
Definition url_nodes : list Re.node :=
  [ Re.AtBeginning;
    Re.One (Re.Literal 104); Re.One (Re.Literal 116);
    Re.One (Re.Literal 116); Re.One (Re.Literal 112);
    Re.MaxRepeat 0 (Some 1) (Re.Literal 115);
    Re.One (Re.Literal 58); Re.One (Re.Literal 47); Re.One (Re.Literal 47);
    Re.One (Re.InSet true [Re.Space; Re.Chr 47; Re.Chr 36; Re.Chr 46;
                           Re.Chr 63; Re.Chr 35]);
    Re.One Re.AnyChar;
    Re.MaxRepeat 0 None (Re.InSet true [Re.Space]);
    Re.AtEnd ].

(** The subject [s] matches the pattern, in the declarative reading. *)
Definition matches_regex (pattern : string) (s : pystr) : Prop :=
  exists p, Re.compile pattern = Some p /\ Re.Matches p 0 s.

(** The strings of [url_regex], spelled out: [http] or [https], [://], a
    first character that is neither whitespace nor one of [/ $ . ? #], a
    second character other than a newline, then characters that are not
    whitespace, up to the end of the string or to a newline that ends it. *)
Definition url_shape (s : pystr) : Prop :=
  exists scheme first second rest tail,
    s = scheme ++ py "://" ++ first :: second :: rest ++ tail
    /\ (scheme = py "http" \/ scheme = py "https")
    /\ Re.is_space first = false /\ (first ∉ py "/$.?#")
    /\ second <> Re.newline
    /\ Forall (fun c => Re.is_space c = false) rest
    /\ (tail = [] \/ tail = [Re.newline]).

(** [validate_url(url)]; [None] for a pattern that does not compile does not
    arise: see [url_regex_compiles]. *)
Definition validate_url (url : option pystr) : result (option pystr) :=
  match url with
  | None => Ok url
  | Some s =>
      match Re.re_match url_regex s with
      | Some true => Ok url
      | Some false => Raise (ValueError "Invalid URL format")
      | None => Raise (RuntimeError "re.error")
      end
  end.


(** The validator as pydantic calls it ([pre=True]): on the raw value of the
    field, whatever its type; [re.match] on a value that is neither [None]
    nor a [str] is a [TypeError]. *)
Definition validate_url_raw (v : value) : result value :=
  match v with
  | VNone => Ok VNone
  | VStr s =>
      match validate_url (Some s) with
      | Ok _ => Ok v
      | Raise e => Raise e
      end
  | _ => Raise (TypeError "expected string or bytes-like object")
  end.

(** ** [user_schemas.py]: the models *)

(** The annotations the schemas use. *)
Inductive annotation :=
| TStr
| TInt
| TBool
| TEmailStr
| THttpUrl
| TUserRole
| TUUID
| TDatetime
| TModel (name : string)
| TList (t : annotation)
| TOptional (t : annotation).

(** A field declaration: annotation, default ([None] here: the field is
    required, [Field(...)] or no default at all) and the constraints of
    [Field]. *)
Record FieldInfo := {
  f_name : string;
  f_type : annotation;
  f_default : option value;
  f_min_length : option nat;
  f_max_length : option nat;
  f_pattern : option string
}.

Definition required (name : string) (t : annotation) : FieldInfo :=
  {| f_name := name; f_type := t; f_default := None;
     f_min_length := None; f_max_length := None; f_pattern := None |}.

Definition optional (name : string) (t : annotation) (d : value) : FieldInfo :=
  {| f_name := name; f_type := TOptional t; f_default := Some d;
     f_min_length := None; f_max_length := None; f_pattern := None |}.

Definition with_min_length (n : nat) (f : FieldInfo) : FieldInfo :=
  {| f_name := f_name f; f_type := f_type f; f_default := f_default f;
     f_min_length := Some n; f_max_length := f_max_length f;
     f_pattern := f_pattern f |}.

Definition with_max_length (n : nat) (f : FieldInfo) : FieldInfo :=
  {| f_name := f_name f; f_type := f_type f; f_default := f_default f;
     f_min_length := f_min_length f; f_max_length := Some n;
     f_pattern := f_pattern f |}.

Definition with_pattern (p : string) (f : FieldInfo) : FieldInfo :=
  {| f_name := f_name f; f_type := f_type f; f_default := f_default f;
     f_min_length := f_min_length f; f_max_length := f_max_length f;
     f_pattern := Some p |}.

(** A field validator: the fields it is attached to, the function, and
    whether it also runs on the default of an absent field ([always]). *)
Record FieldValidator := {
  v_fields : list string;
  v_always : bool;
  v_fun : value -> result value
}.

(** A model class after the class statement has run: its fields in
    declaration order (inherited ones first), its [pre] field validators and
    its [pre] root validators. *)
Record ModelClass := {
  cls_name : string;
  cls_fields : list FieldInfo;
  cls_validators : list FieldValidator;
  cls_root_validators : list (gmap string value -> result (gmap string value))
}.

Definition field_names (c : ModelClass) : list string :=
  List.map f_name (cls_fields c).

(** [class BaseModel]: no field, no validator. *)
Definition BaseModel : ModelClass :=
  {| cls_name := "BaseModel"; cls_fields := []; cls_validators := [];
     cls_root_validators := [] |}.

Definition find_field (name : string) (fs : list FieldInfo) : option FieldInfo :=
  List.find (fun f => String.eqb (f_name f) name) fs.

(** Field collection of a subclass: a field declared again keeps its place
    and takes the new declaration, new fields follow the inherited ones. *)
Definition merge_fields (inherited own : list FieldInfo) : list FieldInfo :=
  List.map (fun f => match find_field (f_name f) own with
                     | Some g => g
                     | None => f
                     end) inherited
  ++ List.filter (fun g => match find_field (f_name g) inherited with
                           | Some _ => false
                           | None => true
                           end) own.

(** [class name(base): fields; validators; root validators] *)
Definition subclass (name : string) (base : ModelClass)
    (own : list FieldInfo) (vs : list FieldValidator)
    (rvs : list (gmap string value -> result (gmap string value)))
  : ModelClass :=
  {| cls_name := name;
     cls_fields := merge_fields (cls_fields base) own;
     cls_validators := cls_validators base ++ vs;
     cls_root_validators := cls_root_validators base ++ rvs |}.

Definition nickname_pattern : string := "^[\w-]+$".

Definition UserBase : ModelClass :=
  subclass "UserBase" BaseModel
    [ required "email" TEmailStr;
      with_pattern nickname_pattern
        (with_min_length 3 (optional "nickname" TStr VNone));
      optional "first_name" TStr VNone;
      optional "last_name" TStr VNone;
      optional "bio" TStr VNone;
      optional "profile_picture_url" TStr VNone;
      optional "linkedin_profile_url" TStr VNone;
      optional "github_profile_url" TStr VNone;
      required "role" TUserRole ]
    [ {| v_fields := ["profile_picture_url"; "linkedin_profile_url";
                      "github_profile_url"];
         v_always := false;
         v_fun := validate_url_raw |} ]
    [].

Definition UserCreate : ModelClass :=
  subclass "UserCreate" UserBase [ required "password" TStr ] [] [].

(** [any(values.values())] *)
Definition py_any (vs : list value) : bool := existsb truthy vs.

Definition dict_values (values : gmap string value) : list value :=
  (map_to_list values).*2.

(** The root validator of the first [UserUpdate]. *)
Definition check_at_least_one_value (values : gmap string value)
  : result (gmap string value) :=
  if negb (py_any (dict_values values))
  then Raise (ValueError "At least one field must be provided for update")
  else Ok values.

(** The first class statement named [UserUpdate] (lines 42-57). *)
Definition UserUpdate_first : ModelClass :=
  subclass "UserUpdate" UserBase
    [ optional "email" TEmailStr VNone;
      with_pattern nickname_pattern
        (with_min_length 3 (optional "nickname" TStr VNone));
      optional "first_name" TStr VNone;
      optional "last_name" TStr VNone;
      optional "bio" TStr VNone;
      optional "profile_picture_url" TStr VNone;
      optional "linkedin_profile_url" TStr VNone;
      optional "github_profile_url" TStr VNone;
      optional "role" TStr VNone ]
    []
    [ check_at_least_one_value ].

(** [str.strip()]: whitespace removed at both ends. *)
Fixpoint lstrip (s : pystr) : pystr :=
  match s with
  | c :: s' => if Re.is_space c then lstrip s' else s
  | [] => []
  end.

Definition strip (s : pystr) : pystr := rev (lstrip (rev (lstrip s))).

Definition strip_whitespace (v : value) : result value :=
  Ok (match v with VStr s => VStr (strip s) | _ => v end).

(** The second class statement named [UserUpdate] (lines 59-84). *)
Definition UserUpdate_second : ModelClass :=
  subclass "UserUpdate" BaseModel
    [ optional "email" TEmailStr VNone;
      with_max_length 50 (optional "name" TStr VNone);
      with_max_length 255 (optional "bio" TStr VNone);
      with_max_length 100 (optional "location" TStr VNone);
      with_min_length 8 (optional "password" TStr VNone);
      optional "linkedin_profile_url" THttpUrl VNone;
      optional "github_profile_url" THttpUrl VNone ]
    [ {| v_fields := ["name"; "bio"; "location"];
         v_always := true;
         v_fun := strip_whitespace |} ]
    [].

Definition UserResponse : ModelClass :=
  subclass "UserResponse" UserBase
    [ required "id" TUUID;
      optional "is_professional" TBool (VBool false);
      required "created_at" TDatetime;
      required "updated_at" TDatetime ]
    [] [].

Definition LoginRequest : ModelClass :=
  subclass "LoginRequest" BaseModel
    [ required "email" TStr; required "password" TStr ] [] [].

Definition ErrorResponse : ModelClass :=
  subclass "ErrorResponse" BaseModel
    [ required "error" TStr; optional "details" TStr VNone ] [] [].

Definition UserListResponse : ModelClass :=
  subclass "UserListResponse" BaseModel
    [ required "items" (TList (TModel "UserResponse"));
      required "total" TInt; required "page" TInt; required "size" TInt ]
    [] [].

(** The class statements of the module, in the order in which the module
    body runs them. *)
Definition class_statements : list (string * ModelClass) :=
  [ ("UserBase", UserBase);
    ("UserCreate", UserCreate);
    ("UserUpdate", UserUpdate_first);
    ("UserUpdate", UserUpdate_second);
    ("UserResponse", UserResponse);
    ("LoginRequest", LoginRequest);
    ("ErrorResponse", ErrorResponse);
    ("UserListResponse", UserListResponse) ].

(** A class statement binds its name in the module namespace; a later
    statement with the same name replaces the binding. *)
Definition bind_class (ns : gmap string ModelClass) (st : string * ModelClass)
  : gmap string ModelClass :=
  <[st.1 := st.2]> ns.

Definition module_namespace : gmap string ModelClass :=
  fold_left bind_class class_statements ∅.

(** What [from app.schemas.user_schemas import name] gives. *)
Definition import_class (name : string) : option ModelClass :=
  module_namespace !! name.

(** *** Instances *)

(** A model instance: its class and the values of its fields. *)
Record Instance := {
  inst_class : string;
  inst_attrs : gmap string value
}.

Definition no_attribute (cls name : string) : exn :=
  AttributeError ("'" +:+ cls +:+ "' object has no attribute '" +:+ name +:+ "'").

(** [obj.name] on a model instance: the fields are its only data
    attributes. *)
Definition getattr (o : Instance) (name : string) : result value :=
  match inst_attrs o !! name with
  | Some v => Ok v
  | None => Raise (no_attribute (inst_class o) name)
  end.

(** [o] is an instance of the class [c]: it carries exactly the fields of
    [c]. *)
Definition instance_of (c : ModelClass) (o : Instance) : Prop :=
  inst_class o = cls_name c /\
  dom (inst_attrs o) = list_to_set (field_names c).

Section Pydantic.

(** The validation of one value against the annotation and constraints of
    one field is the work of pydantic's core, outside these sources. *)
Variable core_validate : FieldInfo -> value -> result value.

(** [Optional[T]] accepts [None] as it is; every other case is the
    core's. *)
Definition validate_type (f : FieldInfo) (v : value) : result value :=
  match f_type f, v with
  | TOptional _, VNone => Ok VNone
  | _, _ => core_validate f v
  end.

(** A [ValueError] raised by a validator is reported as a
    [ValidationError] by the constructor. *)
Definition as_validation_error {A} (r : result A) : result A :=
  match r with
  | Raise (ValueError m) => Raise (ValidationError m)
  | _ => r
  end.

Fixpoint run_validators (vs : list FieldValidator) (name : string)
    (always_only : bool) (v : value) : result value :=
  match vs with
  | [] => Ok v
  | fv :: vs' =>
      if existsb (String.eqb name) (v_fields fv)
         && (negb always_only || v_always fv)
      then match as_validation_error (v_fun fv v) with
           | Ok v' => run_validators vs' name always_only v'
           | Raise e => Raise e
           end
      else run_validators vs' name always_only v
  end.

Definition has_always (vs : list FieldValidator) (name : string) : bool :=
  existsb (fun fv => existsb (String.eqb name) (v_fields fv) && v_always fv)
          vs.

(** One field: a given value goes through the [pre] validators, then the
    core; an absent one takes the default (validated only under
    [always=True]) or is an error when the field is required. *)
Definition validate_field (c : ModelClass) (input : string -> option value)
    (f : FieldInfo) : result value :=
  match input (f_name f) with
  | Some v =>
      match run_validators (cls_validators c) (f_name f) false v with
      | Ok v' => as_validation_error (validate_type f v')
      | Raise e => Raise e
      end
  | None =>
      match f_default f with
      | Some d =>
          if has_always (cls_validators c) (f_name f)
          then match run_validators (cls_validators c) (f_name f) true d with
               | Ok d' => as_validation_error (validate_type f d')
               | Raise e => Raise e
               end
          else Ok d
      | None => Raise (ValidationError ("Field required: " +:+ f_name f))
      end
  end.

Fixpoint validate_fields (c : ModelClass) (input : string -> option value)
    (fs : list FieldInfo) : result (gmap string value) :=
  match fs with
  | [] => Ok ∅
  | f :: fs' =>
      match validate_field c input f with
      | Ok v =>
          match validate_fields c input fs' with
          | Ok m => Ok (<[f_name f := v]> m)
          | Raise e => Raise e
          end
      | Raise e => Raise e
      end
  end.

Fixpoint run_root_validators
    (rvs : list (gmap string value -> result (gmap string value)))
    (values : gmap string value) : result (gmap string value) :=
  match rvs with
  | [] => Ok values
  | rv :: rvs' =>
      match as_validation_error (rv values) with
      | Ok values' => run_root_validators rvs' values'
      | Raise e => Raise e
      end
  end.

(** Calling the class on keyword arguments [values]: the [pre] root
    validators see the raw input, then each field is validated; keys that
    are not fields are ignored. *)
Definition construct (c : ModelClass) (values : gmap string value)
  : result Instance :=
  match run_root_validators (cls_root_validators c) values with
  | Ok values' =>
      match validate_fields c (fun n => values' !! n) (cls_fields c) with
      | Ok attrs => Ok {| inst_class := cls_name c; inst_attrs := attrs |}
      | Raise e => Raise e
      end
  | Raise e => Raise e
  end.

(** [c.model_validate(obj)] under [from_attributes = True]: the fields are
    read from the attributes of [obj]. *)
Definition from_attributes (c : ModelClass) (obj : string -> option value)
  : result Instance :=
  match validate_fields c obj (cls_fields c) with
  | Ok attrs => Ok {| inst_class := cls_name c; inst_attrs := attrs |}
  | Raise e => Raise e
  end.

End Pydantic.

(** A stand-in for the core that accepts every value as it is; used to run
    the constructors on examples. *)
Definition accept_all (f : FieldInfo) (v : value) : result value := Ok v.

(** ** The persistence layer *)

(** Modelled from the spec: the entity [User] is declared in
    [app/models/user_model.py], which is not part of the sources. Its
    attributes are those of the data model of the spec, under the names by
    which the service reads and writes them ([github_link], [linkedin_link],
    [profile_photo_url], [is_pro]). The primary key is kept apart: it is the
    key under which the session stores the entity. *)
Record User := {
  email : value;
  hashed_password : value;
  nickname : value;
  first_name : value;
  last_name : value;
  bio : value;
  github_link : value;
  linkedin_link : value;
  profile_photo_url : value;
  role : UserRole;
  is_pro : bool;
  verification_token : value;
  created_at : value;
  updated_at : value
}.

Definition set_github_link (v : value) (u : User) : User :=
  {| email := email u; hashed_password := hashed_password u;
     nickname := nickname u; first_name := first_name u;
     last_name := last_name u; bio := bio u;
     github_link := v; linkedin_link := linkedin_link u;
     profile_photo_url := profile_photo_url u; role := role u;
     is_pro := is_pro u; verification_token := verification_token u;
     created_at := created_at u; updated_at := updated_at u |}.

Definition set_linkedin_link (v : value) (u : User) : User :=
  {| email := email u; hashed_password := hashed_password u;
     nickname := nickname u; first_name := first_name u;
     last_name := last_name u; bio := bio u;
     github_link := github_link u; linkedin_link := v;
     profile_photo_url := profile_photo_url u; role := role u;
     is_pro := is_pro u; verification_token := verification_token u;
     created_at := created_at u; updated_at := updated_at u |}.

Definition set_profile_photo_url (v : value) (u : User) : User :=
  {| email := email u; hashed_password := hashed_password u;
     nickname := nickname u; first_name := first_name u;
     last_name := last_name u; bio := bio u;
     github_link := github_link u; linkedin_link := linkedin_link u;
     profile_photo_url := v; role := role u;
     is_pro := is_pro u; verification_token := verification_token u;
     created_at := created_at u; updated_at := updated_at u |}.

Definition set_is_pro (b : bool) (u : User) : User :=
  {| email := email u; hashed_password := hashed_password u;
     nickname := nickname u; first_name := first_name u;
     last_name := last_name u; bio := bio u;
     github_link := github_link u; linkedin_link := linkedin_link u;
     profile_photo_url := profile_photo_url u; role := role u;
     is_pro := b; verification_token := verification_token u;
     created_at := created_at u; updated_at := updated_at u |}.

(** The attributes of the entity stored under the key [k], by name. *)
Definition user_attr (k : Z) (u : User) (name : string) : option value :=
  if String.eqb name "id" then Some (VInt k)
  else if String.eqb name "email" then Some (email u)
  else if String.eqb name "hashed_password" then Some (hashed_password u)
  else if String.eqb name "nickname" then Some (nickname u)
  else if String.eqb name "first_name" then Some (first_name u)
  else if String.eqb name "last_name" then Some (last_name u)
  else if String.eqb name "bio" then Some (bio u)
  else if String.eqb name "github_link" then Some (github_link u)
  else if String.eqb name "linkedin_link" then Some (linkedin_link u)
  else if String.eqb name "profile_photo_url" then Some (profile_photo_url u)
  else if String.eqb name "role" then Some (VEnum (role u))
  else if String.eqb name "is_pro" then Some (VBool (is_pro u))
  else if String.eqb name "verification_token"
       then Some (verification_token u)
  else if String.eqb name "created_at" then Some (created_at u)
  else if String.eqb name "updated_at" then Some (updated_at u)
  else None.

Definition UserRole_eqb (a b : UserRole) : bool :=
  match a, b with
  | USER, USER | AUTHENTICATED, AUTHENTICATED | ADMIN, ADMIN => true
  | _, _ => false
  end.

(** [==] on values. *)
Fixpoint value_eqb (a b : value) : bool :=
  match a, b with
  | VNone, VNone => true
  | VBool x, VBool y => Bool.eqb x y
  | VInt x, VInt y => (x =? y)%Z
  | VStr x, VStr y => bool_decide (x = y)
  | VEnum x, VEnum y => UserRole_eqb x y
  | VList x, VList y =>
      (fix go (x y : list value) : bool :=
         match x, y with
         | [], [] => true
         | v :: x', w :: y' => value_eqb v w && go x' y'
         | _, _ => false
         end) x y
  | _, _ => false
  end.

(** The calls a session receives. *)
Inductive call :=
| Execute (filters : list (string * value))
| Commit
| Rollback
| Refresh (k : Z)
| Add (k : Z).

Inductive level := ERROR | INFO.

(** The state the service runs in.
    - [rows]: the committed table of users, by primary key;
    - [pending]: the unit of work of the session, entities added or modified
      and not yet committed, by primary key;
    - [faults]: what the next round trips to the database will do, [None]
      for success and [Some e] for the exception raised ([[]]: all succeed);
    - [trace]: the calls the session received, oldest first;
    - [log]: the records of the module logger, oldest first;
    - [entropy]: the number of draws made from the random generators;
    - [loaded]: the keys of the entities whose attributes are in memory, so
      that reading one needs no round trip; an entity that is not loaded is
      expired;
    - [expire_on_commit]: the option of that name of the session; it is
      [True] unless the caller has built the session otherwise. *)
Record Session := {
  rows : gmap Z User;
  pending : gmap Z User;
  faults : list (option exn);
  trace : list call;
  log : list (level * string);
  entropy : nat;
  loaded : gset Z;
  expire_on_commit : bool
}.

(** The entities as the session sees them: pending state over the rows. *)
Definition view (s : Session) : gmap Z User := pending s ∪ rows s.

(** *** Computations: state and exceptions *)

Definition M (A : Type) : Type := Session -> result A * Session.

Definition ret {A} (a : A) : M A := fun s => (Ok a, s).

Definition bind {A B} (m : M A) (k : A -> M B) : M B :=
  fun s => match m s with
           | (Ok a, s') => k a s'
           | (Raise e, s') => (Raise e, s')
           end.

Definition raise {A} (e : exn) : M A := fun s => (Raise e, s).

Definition lift {A} (r : result A) : M A := fun s => (r, s).

Notation "x <- m ;; k" := (bind m (fun x => k))
  (at level 100, m at next level, right associativity).
Notation "m ;;; k" := (bind m (fun _ => k))
  (at level 100, right associativity).

(** [try: body except C as e: handler e], where [catches e] says whether
    [e] is an instance of [C]. *)
Definition try_except {A} (body : M A) (catches : exn -> bool)
    (handler : exn -> M A) : M A :=
  fun s => match body s with
           | (Ok a, s') => (Ok a, s')
           | (Raise e, s') =>
               if catches e then handler e s' else (Raise e, s')
           end.

(** [isinstance(e, Exception)]. The type [exn] holds classes derived from
    [Exception] only. What derives from [BaseException] alone
    ([asyncio.CancelledError], [KeyboardInterrupt], [SystemExit]) is outside
    the model: no fault, helper or computation of this file raises it, and
    nothing is stated about it. *)
Definition is_Exception (e : exn) : bool := true.

Definition record_call (c : call) : M unit :=
  fun s => (Ok tt,
            {| rows := rows s; pending := pending s; faults := faults s;
               trace := trace s ++ [c]; log := log s;
               entropy := entropy s; loaded := loaded s;
               expire_on_commit := expire_on_commit s |}).

Definition logger (l : level) (msg : string) : M unit :=
  fun s => (Ok tt,
            {| rows := rows s; pending := pending s; faults := faults s;
               trace := trace s; log := log s ++ [(l, msg)];
               entropy := entropy s; loaded := loaded s;
               expire_on_commit := expire_on_commit s |}).

(** One round trip to the database: it consumes the next entry of the
    fault schedule. *)
Definition round_trip : M unit :=
  fun s =>
    match faults s with
    | [] => (Ok tt, s)
    | f :: fs =>
        let s' := {| rows := rows s; pending := pending s; faults := fs;
                     trace := trace s; log := log s;
                     entropy := entropy s; loaded := loaded s;
                     expire_on_commit := expire_on_commit s |} in
        match f with
        | None => (Ok tt, s')
        | Some e => (Raise e, s')
        end
    end.

Definition set_store (r p : gmap Z User) : M unit :=
  fun s => (Ok tt,
            {| rows := r; pending := p; faults := faults s;
               trace := trace s; log := log s; entropy := entropy s;
               loaded := loaded s;
               expire_on_commit := expire_on_commit s |}).

Definition set_loaded (l : gset Z) : M unit :=
  fun s => (Ok tt,
            {| rows := rows s; pending := pending s; faults := faults s;
               trace := trace s; log := log s; entropy := entropy s;
               loaded := l;
               expire_on_commit := expire_on_commit s |}).

(** What remains loaded of [l] after a commit: nothing, unless the session
    was built with [expire_on_commit=False]. *)
Definition expire (s : Session) (l : gset Z) : gset Z :=
  if expire_on_commit s then ∅ else l.

Definition get_session : M Session := fun s => (Ok s, s).

(** [select(User).filter_by] on keyword arguments [filters]: a keyword that is not an attribute
    of the entity is refused when the query is built. *)
Definition blank_user : User :=
  {| email := VNone; hashed_password := VNone; nickname := VNone;
     first_name := VNone; last_name := VNone; bio := VNone;
     github_link := VNone; linkedin_link := VNone;
     profile_photo_url := VNone; role := USER; is_pro := false;
     verification_token := VNone; created_at := VNone;
     updated_at := VNone |}.

Definition select_filter_by (filters : list (string * value))
  : result (list (string * value)) :=
  if forallb (fun f => match user_attr 0 blank_user f.1 with
                       | Some _ => true
                       | None => false
                       end) filters
  then Ok filters
  else Raise (SQLAlchemyError "Entity namespace for User has no property").

Definition row_matches (filters : list (string * value)) (kv : Z * User)
  : bool :=
  forallb (fun f => match user_attr kv.1 kv.2 f.1 with
                    | Some w => value_eqb w f.2
                    | None => false
                    end) filters.

(** The keys of the entities that satisfy every filter. *)
Definition query_result (query : list (string * value)) (m : gmap Z User)
  : list Z :=
  (List.filter (row_matches query) (map_to_list m)).*1.

(** [await session.execute(query)]: the entities of the result are
    loaded. *)
Definition session_execute (query : list (string * value)) : M (list Z) :=
  record_call (Execute query) ;;;
  round_trip ;;;
  s <- get_session ;;
  set_loaded (loaded s ∪ list_to_set (query_result query (view s))) ;;;
  ret (query_result query (view s)).

(** [await session.commit()]: the unit of work becomes the rows, and the
    entities in memory expire under [expire_on_commit]. *)
Definition session_commit : M unit :=
  record_call Commit ;;;
  round_trip ;;;
  s <- get_session ;;
  set_store (view s) ∅ ;;;
  set_loaded (expire s (loaded s)).

(** [await session.rollback()]: the unit of work is dropped, and every
    entity in memory expires. The rollback itself is taken to succeed: it
    makes no entry of the fault schedule its own. *)
Definition session_rollback : M unit :=
  record_call Rollback ;;;
  s <- get_session ;;
  set_store (rows s) ∅ ;;;
  set_loaded ∅.

(** [await session.refresh(obj)]: the entity is read again from its row. *)
Definition session_refresh (k : Z) : M unit :=
  record_call (Refresh k) ;;;
  round_trip ;;;
  s <- get_session ;;
  match rows s !! k with
  | Some _ =>
      set_store (rows s) (delete k (pending s)) ;;;
      set_loaded (loaded s ∪ {[ k ]})
  | None => raise (SQLAlchemyError "Could not refresh instance")
  end.

(** The key a new row receives. *)
Definition next_id (m : gmap Z User) : Z :=
  1 + map_fold (fun k _ acc => Z.max k acc) 0%Z m.

(** [session.add(obj)]: the new entity joins the unit of work; it is in
    memory. *)
Definition session_add (u : User) : M Z :=
  s <- get_session ;;
  let k := next_id (view s) in
  record_call (Add k) ;;;
  set_store (rows s) (<[k := u]> (pending s)) ;;;
  set_loaded (loaded s ∪ {[ k ]}) ;;;
  ret k.

(** [obj.attr] on the entity stored under [k], for an attribute that has
    not been assigned since the entity was loaded (the service reads no
    other). A loaded entity gives its value. An expired one would have to be
    read from the database, and an [AsyncSession] does no such read on
    attribute access: the access raises [MissingGreenlet], a
    [SQLAlchemyError]. *)
Definition entity_get {A} (k : Z) (attr : User -> A) : M A :=
  s <- get_session ;;
  if bool_decide (k ∈ loaded s) then
    match view s !! k with
    | Some u => ret (attr u)
    | None => raise (SQLAlchemyError "Instance has been deleted")
    end
  else raise (SQLAlchemyError "MissingGreenlet: greenlet_spawn has not been called").

(** [obj.attr = v] on the entity stored under [k]: the change is pending
    until the next commit. An assignment reads nothing, so that it works on
    an expired entity as well. *)
Definition entity_set (k : Z) (update : User -> User) : M unit :=
  s <- get_session ;;
  match view s !! k with
  | Some u => set_store (rows s) (<[k := update u]> (pending s))
  | None => raise (SQLAlchemyError "Instance has been deleted")
  end.

(** [a or b]: [b] is evaluated only when [a] is falsy. *)
Definition or_else (a b : M value) : M value :=
  x <- a ;;
  if truthy x then ret x else b.

(** One draw from a random generator. *)
Definition draw (gen : nat -> result value) : M value :=
  fun s =>
    (gen (entropy s),
     {| rows := rows s; pending := pending s; faults := faults s;
        trace := trace s; log := log s; entropy := S (entropy s);
        loaded := loaded s; expire_on_commit := expire_on_commit s |}).

(** The next [n] round trips succeed. *)
Fixpoint fault_free (n : nat) (fs : list (option exn)) : bool :=
  match n, fs with
  | O, _ => true
  | S _, [] => true
  | S n', None :: fs' => fault_free n' fs'
  | S _, Some _ :: _ => false
  end.


(** A later state of the session [s]: [n] round trips made, the calls
    [calls] and the log records [records] added, rows [r], unit of work [p]
    and loaded entities [l]. *)
Definition after (n : nat) (calls : list call)
    (records : list (level * string)) (r p : gmap Z User) (l : gset Z)
    (s : Session) : Session :=
  {| rows := r; pending := p; faults := drop n (faults s);
     trace := trace s ++ calls; log := log s ++ records;
     entropy := entropy s; loaded := l;
     expire_on_commit := expire_on_commit s |}.

(** The calls of one [get_by_id], after the query itself. *)
Definition get_by_id_calls (calls : list call) : Prop :=
  calls = [] \/ calls = [Commit] \/ calls = [Rollback]
  \/ calls = [Commit; Rollback].

(** The reference to the entity stored under [uid], if there is one. *)
Definition found (uid : Z) (m : gmap Z User) : option Z :=
  match m !! uid with
  | Some _ => Some uid
  | None => None
  end.

(** The class the service imports under the name [UserUpdate]. *)
Definition UserUpdate : ModelClass :=
  match import_class "UserUpdate" with
  | Some c => c
  | None => BaseModel
  end.

(** ** [user_service.py]: [UserService] *)

Section UserService.

(** [app/utils/security.py] and [app/utils/nickname_gen.py] are not part
    of the sources: the hash function and the two generators are taken as
    they come. A generator is a function of the number of draws made
    before. *)
Variable hash_password : value -> result value.
Variable generate_verification_token : nat -> result value.
Variable generate_nickname : nat -> result value.

Definition _execute_query (query : list (string * value))
  : M (option (list Z)) :=
  try_except
    (result <- session_execute query ;;
     session_commit ;;;
     ret (Some result))
    is_SQLAlchemyError
    (fun e =>
       logger ERROR ("Database error: " +:+ exn_str e) ;;;
       session_rollback ;;;
       ret None).

Definition _fetch_user (filters : list (string * value)) : M (option Z) :=
  query <- lift (select_filter_by filters) ;;
  result <- _execute_query query ;;
  ret (match result with
       | Some found => head found
       | None => None
       end).

Definition get_by_id (user_id : Z) : M (option Z) :=
  _fetch_user [("id", VInt user_id)].

Definition create_user (user_data : Instance) : M (option Z) :=
  try_except
    (password <- lift (getattr user_data "password") ;;
     hashed <- lift (hash_password password) ;;
     email_ <- lift (getattr user_data "email") ;;
     github <- lift (getattr user_data "github_link") ;;
     linkedin <- lift (getattr user_data "linkedin_link") ;;
     photo <- lift (getattr user_data "profile_photo_url") ;;
     token <- draw generate_verification_token ;;
     nick <- draw generate_nickname ;;
     let new_user :=
       {| email := email_; hashed_password := hashed; nickname := nick;
          first_name := VNone; last_name := VNone; bio := VNone;
          github_link := github; linkedin_link := linkedin;
          profile_photo_url := photo; role := USER; is_pro := false;
          verification_token := token; created_at := VNone;
          updated_at := VNone |} in
     k <- session_add new_user ;;
     session_commit ;;;
     session_refresh k ;;;
     ret (Some k))
    is_Exception
    (fun e =>
       logger ERROR ("Error creating user: " +:+ exn_str e) ;;;
       ret None).

Definition update_user_profile (user_id : Z) (user_update : Instance)
  : M (option Z) :=
  try_except
    (db_user <- get_by_id user_id ;;
     match db_user with
     | Some k =>
         github <- or_else (lift (getattr user_update "github_link"))
                           (entity_get k github_link) ;;
         entity_set k (set_github_link github) ;;;
         linkedin <- or_else (lift (getattr user_update "linkedin_link"))
                             (entity_get k linkedin_link) ;;
         entity_set k (set_linkedin_link linkedin) ;;;
         photo <- or_else (lift (getattr user_update "profile_photo_url"))
                          (entity_get k profile_photo_url) ;;
         entity_set k (set_profile_photo_url photo) ;;;
         session_commit ;;;
         session_refresh k ;;;
         ret (Some k)
     | None =>
         logger ERROR ("User with ID " +:+ pretty user_id +:+ " not found.") ;;;
         ret None
     end)
    is_Exception
    (fun e =>
       logger ERROR ("Error updating user profile: " +:+ exn_str e) ;;;
       ret None).

Definition upgrade_user_to_pro (user_id : Z) : M (option Z) :=
  try_except
    (db_user <- get_by_id user_id ;;
     match db_user with
     | Some k =>
         entity_set k (set_is_pro true) ;;;
         session_commit ;;;
         session_refresh k ;;;
         logger INFO ("User " +:+ pretty user_id +:+ " upgraded to PRO status.") ;;;
         ret (Some k)
     | None =>
         logger ERROR ("User with ID " +:+ pretty user_id +:+ " not found.") ;;;
         ret None
     end)
    is_Exception
    (fun e =>
       logger ERROR ("Error upgrading user to PRO: " +:+ exn_str e) ;;;
       ret None).

End UserService.

(** ** Example data *)

Definition johndoe : User :=
  {| email := VStr (py "john.doe@example.com");
     hashed_password := VStr (py "$2b$12$KIXQJ");
     nickname := VStr (py "clever_fox_42");
     first_name := VStr (py "John"); last_name := VStr (py "Doe");
     bio := VNone;
     github_link := VStr (py "https://github.com/johndoe");
     linkedin_link := VStr (py "https://linkedin.com/in/johndoe");
     profile_photo_url := VNone;
     role := AUTHENTICATED; is_pro := false;
     verification_token := VStr (py "5f2b");
     created_at := VStr (py "2023-01-01T12:00:00Z");
     updated_at := VStr (py "2023-01-02T12:00:00Z") |}.

(** A session over a table that holds [johndoe] under the key 1, with
    nothing pending, nothing loaded, no fault scheduled and the default
    [expire_on_commit]. *)
Definition one_user : Session :=
  {| rows := {[ 1%Z := johndoe ]}; pending := ∅; faults := [];
     trace := []; log := []; entropy := 0; loaded := ∅;
     expire_on_commit := true |}.

(** The same table behind a database that fails at the next round trip. *)
Definition one_user_db_down : Session :=
  {| rows := {[ 1%Z := johndoe ]}; pending := ∅;
     faults := [Some (SQLAlchemyError "connection refused")];
     trace := []; log := []; entropy := 0; loaded := ∅;
     expire_on_commit := true |}.

(** [UserCreate(email="a@b.com", password="Secure*1234", role=ADMIN)] *)
Definition create_payload : gmap string value :=
  {[ "email" := VStr (py "a@b.com");
     "password" := VStr (py "Secure*1234");
     "role" := VEnum ADMIN ]}.

Definition create_request : Instance :=
  {| inst_class := "UserCreate";
     inst_attrs :=
       <["nickname" := VNone]> (<["first_name" := VNone]>
       (<["last_name" := VNone]> (<["bio" := VNone]>
       (<["profile_picture_url" := VNone]> (<["linkedin_profile_url" := VNone]>
       (<["github_profile_url" := VNone]> create_payload)))))) |}.

(** [UserUpdate(github_profile_url="https://github.com/new")] *)
Definition update_request : Instance :=
  {| inst_class := "UserUpdate";
     inst_attrs :=
       {[ "email" := VNone; "name" := VNone; "bio" := VNone;
          "location" := VNone; "password" := VNone;
          "linkedin_profile_url" := VNone;
          "github_profile_url" := VStr (py "https://github.com/new") ]} |}.

(** Stand-ins for the security utilities and the nickname generator. *)
Definition example_hash (v : value) : result value :=
  match v with
  | VStr s => Ok (VStr (py "$2b$" ++ rev s))
  | _ => Raise (TypeError "password must be a string")
  end.

Definition example_token (n : nat) : result value := Ok (VStr (py "5f2b")).

Definition example_nickname (n : nat) : result value :=
  Ok (VStr (py "clever_fox_42")).

(** An object of another class, one that does carry the attributes the
    service reads. *)
Definition profile_links (github linkedin photo : value) : Instance :=
  {| inst_class := "ProfileLinks";
     inst_attrs := {[ "github_link" := github; "linkedin_link" := linkedin;
                      "profile_photo_url" := photo ]} |}.

Definition signup (email_ password github linkedin photo : value) : Instance :=
  {| inst_class := "Signup";
     inst_attrs := {[ "email" := email_; "password" := password;
                      "github_link" := github; "linkedin_link" := linkedin;
                      "profile_photo_url" := photo ]} |}.

(** ** Further example data *)

(** The table of [one_user] behind a database whose third round trip
    fails: the lookup of a method succeeds, its own commit does not. *)
Definition one_user_commit_fails : Session :=
  {| rows := {[ 1%Z := johndoe ]}; pending := ∅;
     faults := [None; None; Some (SQLAlchemyError "deadlock detected")];
     trace := []; log := []; entropy := 0; loaded := ∅;
     expire_on_commit := true |}.

(** A session in which the caller has set the pro flag of user 1 and not
    committed. *)
Definition one_user_dirty : Session :=
  {| rows := {[ 1%Z := johndoe ]};
     pending := {[ 1%Z := set_is_pro true johndoe ]};
     faults := []; trace := []; log := []; entropy := 0; loaded := ∅;
     expire_on_commit := true |}.

(** The fields of [UserBase] that go through [validate_url]. *)
Definition url_fields : list string :=
  ["profile_picture_url"; "linkedin_profile_url"; "github_profile_url"].

(** The fields of the second [UserUpdate] that go through
    [strip_whitespace]. *)
Definition stripped_fields : list string := ["name"; "bio"; "location"].

(** A value that is neither [None] nor a [str]. *)
Definition not_a_string (v : value) : bool :=
  match v with
  | VNone | VStr _ => false
  | _ => true
  end.

(** The same table in a session built with [expire_on_commit=False]. *)
Definition one_user_no_expiry : Session :=
  {| rows := {[ 1%Z := johndoe ]}; pending := ∅; faults := [];
     trace := []; log := []; entropy := 0; loaded := ∅;
     expire_on_commit := false |}.


(** ** Properties of the matcher *)

Module ReFacts.
Import Re.

Lemma at_end_spec (s : pystr) : at_end s = true <-> s = [] \/ s = [newline].
Proof.
  destruct s as [|c [|d s]]; simpl.
  - split; [by left | done].
  - rewrite N.eqb_eq. split.
    + intros ->. by right.
    + intros [?|[= ->]]; done.
  - split; [done | intros [?|?]; done].
Qed.

Section Repeat.
Variables (k : nat -> pystr -> bool) (a : atom) (lo : nat) (hi : option nat).

Lemma below_spec n : cap_ok hi n -> below n hi = true <-> cap_ok hi (S n).
Proof.
  unfold below, cap_ok. destruct hi as [h|]; [|done].
  intros _. rewrite Nat.ltb_lt. lia.
Qed.

Lemma repeat_loop_sound s : forall n pos,
  repeat_loop k a lo hi n pos s = true ->
  cap_ok hi n ->
  exists cs s', s = cs ++ s'
    /\ Forall (fun c => atom_matches a c = true) cs
    /\ (lo <= n + length cs)%nat /\ cap_ok hi (n + length cs)
    /\ k (pos + length cs)%nat s' = true.
Proof.
  induction s as [|c s IH]; intros n pos H Hn; simpl in H.
  - apply andb_true_iff in H as [Hlo Hk]. apply Nat.leb_le in Hlo.
    exists [], []. simpl. rewrite !Nat.add_0_r. by repeat split.
  - apply orb_true_iff in H as [H|H].
    + apply andb_true_iff in H as [H Hrec].
      apply andb_true_iff in H as [Hb Ha].
      apply below_spec in Hb; [|done].
      destruct (IH _ _ Hrec Hb) as (cs & s' & -> & Hall & Hlo & Hcap & Hk).
      exists (c :: cs), s'. simpl.
      replace (n + S (length cs))%nat with (S n + length cs)%nat by lia.
      replace (pos + S (length cs))%nat with (S pos + length cs)%nat by lia.
      repeat split; try done. by constructor.
    + apply andb_true_iff in H as [Hlo Hk]. apply Nat.leb_le in Hlo.
      exists [], (c :: s). simpl. rewrite !Nat.add_0_r. by repeat split.
Qed.

Lemma repeat_loop_complete cs : forall s' n pos,
  Forall (fun c => atom_matches a c = true) cs ->
  (lo <= n + length cs)%nat -> cap_ok hi (n + length cs) ->
  k (pos + length cs)%nat s' = true ->
  repeat_loop k a lo hi n pos (cs ++ s') = true.
Proof.
  induction cs as [|c cs IH]; intros s' n pos Hall Hlo Hcap Hk; simpl in *.
  - rewrite !Nat.add_0_r in *.
    assert (Hle : (lo <=? n)%nat = true) by by apply Nat.leb_le.
    destruct s' as [|d s']; simpl; rewrite Hle, Hk; simpl;
      [done | apply orb_true_r].
  - inversion Hall as [|? ? Hc Hcs]; subst.
    apply orb_true_iff. left.
    assert (Hn : cap_ok hi n).
    { unfold cap_ok in *. destruct hi; [lia | done]. }
    assert (HSn : cap_ok hi (S n)).
    { unfold cap_ok in *. destruct hi; [lia | done]. }
    rewrite (proj2 (below_spec n Hn) HSn), Hc. simpl.
    apply IH; try done.
    + lia.
    + by replace (S n + length cs)%nat with (n + S (length cs))%nat by lia.
    + by replace (S pos + length cs)%nat with (pos + S (length cs))%nat by lia.
Qed.
End Repeat.

(** The backtracking matcher decides the declarative relation. *)
Lemma match_nodes_sound p : forall pos s,
  match_nodes p pos s = true -> Matches p pos s.
Proof.
  induction p as [|n p IH]; intros pos s H; [constructor|].
  destruct n as [| |a|lo hi a]; simpl in H.
  - apply andb_true_iff in H as [Hp H]. apply Nat.eqb_eq in Hp. subst.
    constructor. by apply IH.
  - apply andb_true_iff in H as [He H]. apply at_end_spec in He.
    constructor; [done | by apply IH].
  - destruct s as [|c s]; [done|].
    apply andb_true_iff in H as [Ha H]. constructor; [done | by apply IH].
  - apply repeat_loop_sound in H as (cs & s' & -> & Hall & Hlo & Hcap & Hk).
    + constructor; [done | | by apply IH].
      split; [lia | by destruct hi].
    + unfold cap_ok. destruct hi; [lia | done].
Qed.

Lemma match_nodes_complete p pos s :
  Matches p pos s -> match_nodes p pos s = true.
Proof.
  induction 1 as [| p s _ IH | p pos s He _ IH | a p pos c s Ha _ IH
                  | lo hi a p pos cs s Hall [Hlo Hhi] _ IH]; simpl.
  - done.
  - done.
  - apply at_end_spec in He. by rewrite He.
  - by rewrite Ha.
  - by apply repeat_loop_complete.
Qed.

Lemma match_nodes_spec p pos s : match_nodes p pos s = true <-> Matches p pos s.
Proof. split; [apply match_nodes_sound | apply match_nodes_complete]. Qed.

End ReFacts.

(** ** The URL validator *)

Lemma url_regex_compiles : Re.compile url_regex = Some url_nodes.
Proof. reflexivity. Qed.

Lemma matches_url_regex (s : pystr) :
  matches_regex url_regex s <-> Re.match_nodes url_nodes 0 s = true.
Proof.
  rewrite ReFacts.match_nodes_spec. unfold matches_regex.
  rewrite url_regex_compiles. split.
  - by intros (p & [= <-] & H).
  - intros H. by exists url_nodes.
Qed.

Lemma validate_url_Some (s : pystr) :
  validate_url (Some s) =
  if Re.match_nodes url_nodes 0 s then Ok (Some s)
  else Raise (ValueError "Invalid URL format").
Proof.
  unfold validate_url, Re.re_match. rewrite url_regex_compiles.
  by destruct (Re.match_nodes url_nodes 0 s).
Qed.

(** C5: [validate_url] passes [None] through; a string that matches the
    regex is returned unchanged; a string that does not match fails with the
    error "Invalid URL format". *)
Theorem validate_url_spec :
  validate_url None = Ok None
  /\ (forall s : pystr, matches_regex url_regex s ->
        validate_url (Some s) = Ok (Some s))
  /\ (forall s : pystr, ~ matches_regex url_regex s ->
        validate_url (Some s) = Raise (ValueError "Invalid URL format")).
Proof.
  split; [reflexivity|]. split; intros s H; rewrite validate_url_Some.
  - apply matches_url_regex in H. by rewrite H.
  - rewrite matches_url_regex in H. by destruct (Re.match_nodes url_nodes 0 s).
Qed.

Lemma validate_url_spec_witness :
  validate_url (Some (py "https://github.com/johndoe"))
    = Ok (Some (py "https://github.com/johndoe"))
  /\ validate_url (Some (py "github.com/johndoe"))
    = Raise (ValueError "Invalid URL format").
Proof.
  split.
  - apply (proj1 (proj2 validate_url_spec)).
    apply matches_url_regex. reflexivity.
  - apply (proj2 (proj2 validate_url_spec)).
    intros H. apply matches_url_regex in H. discriminate H.
Defined.

(** The validator never answers with the "pattern does not compile" error,
    and it returns nothing but its argument. *)
Lemma validate_url_returns_argument (url r : option pystr) :
  validate_url url = Ok r -> r = url.
Proof.
  destruct url as [s|]; [|by intros [= <-]].
  rewrite validate_url_Some. by destruct (Re.match_nodes url_nodes 0 s); intros [= <-].
Qed.

(** A newline that ends the string is let through by [$]. *)
Example validate_url_trailing_newline :
  validate_url (Some (py "http://ab" ++ [Re.newline]))
  = Ok (Some (py "http://ab" ++ [Re.newline])).
Proof. reflexivity. Qed.

Example validate_url_one_character_host :
  validate_url (Some (py "http://a")) = Raise (ValueError "Invalid URL format").
Proof. reflexivity. Qed.

(** *** The strings that match [url_regex] *)

Lemma literal_matches (d c : N) :
  Re.atom_matches (Re.Literal d) c = true <-> c = d.
Proof. simpl. apply N.eqb_eq. Qed.

Lemma not_space_matches (c : N) :
  Re.atom_matches (Re.InSet true [Re.Space]) c = true
  <-> Re.is_space c = false.
Proof. simpl. by destruct (Re.is_space c). Qed.

Lemma host_start_matches (c : N) :
  Re.atom_matches
    (Re.InSet true [Re.Space; Re.Chr 47; Re.Chr 36; Re.Chr 46; Re.Chr 63;
                    Re.Chr 35]) c = true
  <-> Re.is_space c = false /\ c ∉ py "/$.?#".
Proof.
  change (py "/$.?#") with [47%N; 36%N; 46%N; 63%N; 35%N].
  rewrite list_elem_of_In. split.
  - intros H. split.
    + simpl in H. by destruct (Re.is_space c).
    + intros Hin. simpl in Hin.
      destruct Hin as [<-|[<-|[<-|[<-|[<-|[]]]]]]; discriminate H.
  - intros [Hs Hn]. simpl. rewrite Hs. simpl.
    repeat match goal with
           | |- context [(c =? ?d)%N] =>
               destruct (N.eqb_spec c d) as [->|_];
               [exfalso; apply Hn; simpl; tauto|]
           end.
    reflexivity.
Qed.

Ltac invert_matches :=
  match goal with
  | H : Re.Matches (_ :: _) _ _ |- _ => inversion H; subst; clear H
  end.

Lemma url_shape_of_match (s : pystr) :
  Re.Matches url_nodes 0 s -> url_shape s.
Proof.
  unfold url_nodes. intros H.
  do 5 invert_matches.
  match goal with
  | H : Re.Matches (Re.MaxRepeat _ _ _ :: _) _ _ |- _ =>
      inversion H as [| | | |? ? ? ? ? opt s1 Hopt [_ Hcap] Hm]; subst; clear H
  end.
  do 5 invert_matches.
  match goal with
  | H : Re.Matches (Re.MaxRepeat _ _ _ :: _) _ _ |- _ =>
      inversion H as [| | | |? ? ? ? ? rest tail Hrest _ Hm']; subst; clear H
  end.
  invert_matches.
  repeat match goal with
         | H : Re.atom_matches (Re.Literal _) _ = true |- _ =>
             apply literal_matches in H; subst
         end.
  match goal with
  | H : Re.atom_matches (Re.InSet true (Re.Space :: _ :: _)) _ = true |- _ =>
      apply host_start_matches in H as [Hsp Hnot]
  end.
  match goal with
  | H : Re.atom_matches Re.AnyChar ?c = true |- _ =>
      assert (Hnl : c <> Re.newline)
        by (simpl in H; intros ->; by rewrite N.eqb_refl in H);
      clear H
  end.
  assert (Hrest' : Forall (fun c => Re.is_space c = false) rest).
  { eapply Forall_impl; [exact Hrest|]. intros c. apply not_space_matches. }
  destruct opt as [|o [|o' opt]]; simpl in Hcap; [| |lia].
  - eexists (py "http"), _, _, rest, tail. repeat split; try done. by left.
  - inversion Hopt as [|? ? Ho _]; subst. apply literal_matches in Ho. subst.
    eexists (py "https"), _, _, rest, tail. repeat split; try done. by right.
Qed.

Lemma match_of_url_shape (s : pystr) :
  url_shape s -> Re.Matches url_nodes 0 s.
Proof.
  intros (scheme & first & second & rest & tail & -> & Hscheme & Hsp & Hnot
          & Hnl & Hrest & Htail).
  assert (Hbody : forall pos,
    Re.Matches
      [ Re.One (Re.Literal 58); Re.One (Re.Literal 47); Re.One (Re.Literal 47);
        Re.One (Re.InSet true [Re.Space; Re.Chr 47; Re.Chr 36; Re.Chr 46;
                               Re.Chr 63; Re.Chr 35]);
        Re.One Re.AnyChar;
        Re.MaxRepeat 0 None (Re.InSet true [Re.Space]);
        Re.AtEnd ] pos (py "://" ++ first :: second :: rest ++ tail)).
  { intros pos. simpl.
    do 3 (apply Re.M_one; [reflexivity|]).
    apply Re.M_one; [by apply host_start_matches|].
    apply Re.M_one; [simpl; by destruct (N.eqb_spec second Re.newline)|].
    apply Re.M_repeat.
    - eapply Forall_impl; [exact Hrest|]. intros c. apply not_space_matches.
    - split; [lia | done].
    - apply Re.M_eol; [done | constructor]. }
  unfold url_nodes. apply Re.M_bol.
  destruct Hscheme as [-> | ->]; simpl;
    do 4 (apply Re.M_one; [reflexivity|]).
  - apply (Re.M_repeat 0 (Some 1) _ _ _ []); [constructor | split; simpl; lia |].
    apply Hbody.
  - apply (Re.M_repeat 0 (Some 1) _ _ _ [115%N]);
      [by repeat constructor | split; simpl; lia |].
    apply Hbody.
Qed.

(** The regex accepts exactly the strings of [url_shape]. *)
Lemma url_regex_shape (s : pystr) : matches_regex url_regex s <-> url_shape s.
Proof.
  rewrite matches_url_regex, ReFacts.match_nodes_spec.
  split; [apply url_shape_of_match | apply match_of_url_shape].
Qed.

(** ** The schemas *)

Lemma py_any_dict_values (values : gmap string value) :
  py_any (dict_values values) = true
  <-> exists k v, values !! k = Some v /\ truthy v = true.
Proof.
  unfold py_any, dict_values. rewrite existsb_exists. split.
  - intros (v & Hin & Hv). apply list_elem_of_In, list_elem_of_fmap in Hin.
    destruct Hin as ([k w] & -> & Hin). apply elem_of_map_to_list in Hin.
    by exists k, w.
  - intros (k & v & Hk & Hv). exists v. split; [|done].
    apply list_elem_of_In, list_elem_of_fmap. exists (k, v). split; [done|].
    by apply elem_of_map_to_list.
Qed.

Lemma check_at_least_one_value_falsy (values : gmap string value) :
  (forall k v, values !! k = Some v -> truthy v = false) ->
  check_at_least_one_value values
  = Raise (ValueError "At least one field must be provided for update").
Proof.
  intros Hall. unfold check_at_least_one_value.
  destruct (py_any (dict_values values)) eqn:Hany; [|done].
  apply py_any_dict_values in Hany as (k & v & Hk & Hv).
  rewrite (Hall k v Hk) in Hv. discriminate.
Qed.

Lemma check_at_least_one_value_truthy (values : gmap string value) :
  (exists k v, values !! k = Some v /\ truthy v = true) ->
  check_at_least_one_value values = Ok values.
Proof.
  intros H. apply py_any_dict_values in H.
  unfold check_at_least_one_value. by rewrite H.
Qed.

(** C6: under the first [UserUpdate], a payload whose submitted fields are
    all falsy (or that submits none) is refused by the constructor with
    "At least one field must be provided for update"; a payload with a
    truthy field passes the check. *)
Theorem first_UserUpdate_needs_one_value
    (core_validate : FieldInfo -> value -> result value)
    (values : gmap string value) :
  ((forall k v, values !! k = Some v -> truthy v = false) ->
     construct core_validate UserUpdate_first values
     = Raise (ValidationError "At least one field must be provided for update"))
  /\ ((exists k v, values !! k = Some v /\ truthy v = true) ->
     check_at_least_one_value values = Ok values
     /\ run_root_validators (cls_root_validators UserUpdate_first) values
        = Ok values).
Proof.
  split.
  - intros H. unfold construct.
    change (cls_root_validators UserUpdate_first)
      with [check_at_least_one_value].
    simpl. by rewrite (check_at_least_one_value_falsy _ H).
  - intros H.
    change (cls_root_validators UserUpdate_first)
      with [check_at_least_one_value].
    simpl. by rewrite (check_at_least_one_value_truthy _ H).
Qed.

Lemma first_UserUpdate_needs_one_value_witness :
  construct accept_all UserUpdate_first {[ "bio" := VStr []; "role" := VNone ]}
  = Raise (ValidationError "At least one field must be provided for update")
  /\ check_at_least_one_value {[ "bio" := VStr (py "Developer") ]}
     = Ok {[ "bio" := VStr (py "Developer") ]}.
Proof.
  split.
  - apply (proj1 (first_UserUpdate_needs_one_value accept_all _)).
    intros k v Hk.
    apply lookup_insert_Some in Hk as [[_ <-]|[_ Hk]]; [reflexivity|].
    apply lookup_singleton_Some in Hk as [_ <-]. reflexivity.
  - apply (proj2 (first_UserUpdate_needs_one_value accept_all _)).
    exists "bio", (VStr (py "Developer")). split; [|reflexivity].
    apply lookup_singleton_eq.
Defined.

(** The empty payload is the extreme case. *)
Example first_UserUpdate_empty_payload :
  construct accept_all UserUpdate_first ∅
  = Raise (ValidationError "At least one field must be provided for update").
Proof. reflexivity. Qed.

(** The check sees no difference between a value that is absent and one
    that is zero or empty. *)
Example first_UserUpdate_zero_is_absent :
  check_at_least_one_value {[ "bio" := VStr []; "nickname" := VInt 0 ]}
  = Raise (ValueError "At least one field must be provided for update").
Proof. reflexivity. Qed.

Lemma validate_fields_dom
    (core_validate : FieldInfo -> value -> result value) (c : ModelClass)
    (input : string -> option value) (fs : list FieldInfo)
    (m : gmap string value) :
  validate_fields core_validate c input fs = Ok m ->
  dom m = list_to_set (List.map f_name fs).
Proof.
  revert m. induction fs as [|f fs IH]; intros m; simpl.
  - intros [= <-]. by rewrite dom_empty_L.
  - destruct (validate_field core_validate c input f) as [v|e]; [|done].
    destruct (validate_fields core_validate c input fs) as [m'|e]; [|done].
    intros [= <-]. rewrite dom_insert_L, (IH m' eq_refl). done.
Qed.

Lemma construct_instance_of
    (core_validate : FieldInfo -> value -> result value) (c : ModelClass)
    (values : gmap string value) (o : Instance) :
  construct core_validate c values = Ok o -> instance_of c o.
Proof.
  unfold construct.
  destruct (run_root_validators _ _) as [values'|e]; [|done].
  destruct (validate_fields _ _ _ _) as [m|e] eqn:Hm; [|done].
  intros [= <-]. split; [done|]. simpl.
  by apply validate_fields_dom in Hm.
Qed.

Lemma from_attributes_instance_of
    (core_validate : FieldInfo -> value -> result value) (c : ModelClass)
    (obj : string -> option value) (o : Instance) :
  from_attributes core_validate c obj = Ok o -> instance_of c o.
Proof.
  unfold from_attributes.
  destruct (validate_fields _ _ _ _) as [m|e] eqn:Hm; [|done].
  intros [= <-]. split; [done|]. simpl.
  by apply validate_fields_dom in Hm.
Qed.

(** Reading an attribute of an instance: a field gives its value, any
    other name is an [AttributeError]. *)
Lemma getattr_field (c : ModelClass) (o : Instance) (name : string) :
  instance_of c o -> name ∈ field_names c ->
  exists v, getattr o name = Ok v.
Proof.
  intros [_ Hdom] Hin. unfold getattr.
  assert (Hd : name ∈ dom (inst_attrs o)).
  { rewrite Hdom. by apply elem_of_list_to_set. }
  apply elem_of_dom in Hd as [v Hv]. exists v. by rewrite Hv.
Qed.

Lemma getattr_not_field (c : ModelClass) (o : Instance) (name : string) :
  instance_of c o -> name ∉ field_names c ->
  getattr o name = Raise (no_attribute (cls_name c) name).
Proof.
  intros [Hcls Hdom] Hin. unfold getattr.
  assert (Hd : name ∉ dom (inst_attrs o)).
  { rewrite Hdom. by rewrite elem_of_list_to_set. }
  apply not_elem_of_dom in Hd. by rewrite Hd, Hcls.
Qed.

(** C7: the name [UserUpdate] is bound to the second class statement; the
    class has the seven fields of that statement and no root validator, and
    it can be constructed with every field absent, where the first class
    refuses. *)
Theorem UserUpdate_is_the_second_definition :
  import_class "UserUpdate" = Some UserUpdate_second
  /\ UserUpdate = UserUpdate_second
  /\ field_names UserUpdate
     = ["email"; "name"; "bio"; "location"; "password";
        "linkedin_profile_url"; "github_profile_url"]
  /\ cls_root_validators UserUpdate = []
  /\ (forall core_validate, exists o,
        construct core_validate UserUpdate ∅ = Ok o
        /\ instance_of UserUpdate o
        /\ forall name, name ∈ field_names UserUpdate ->
                        getattr o name = Ok VNone)
  /\ (forall core_validate,
        construct core_validate UserUpdate_first ∅
        = Raise (ValidationError
                   "At least one field must be provided for update")).
Proof.
  split; [reflexivity|]. split; [reflexivity|]. split; [reflexivity|].
  split; [reflexivity|]. split.
  - intros core_validate.
    destruct (construct core_validate UserUpdate ∅) as [o|e] eqn:Ho;
      [|by vm_compute in Ho].
    exists o. split; [done|]. split; [by eapply construct_instance_of|].
    intros name Hin. vm_compute in Ho. injection Ho as <-.
    change (field_names UserUpdate)
      with ["email"; "name"; "bio"; "location"; "password";
            "linkedin_profile_url"; "github_profile_url"] in Hin.
    repeat (apply elem_of_cons in Hin as [->|Hin]; [reflexivity|]).
    by apply elem_of_nil in Hin.
  - intros core_validate. reflexivity.
Qed.

(** The two classes share a name and nothing else decides between them:
    the first one has nine fields, among them the three profile URLs. *)
Example first_UserUpdate_fields :
  field_names UserUpdate_first
  = ["email"; "nickname"; "first_name"; "last_name"; "bio";
     "profile_picture_url"; "linkedin_profile_url"; "github_profile_url";
     "role"].
Proof. reflexivity. Qed.

(** C10: [UserResponse] has the fields of [UserBase] followed by [id],
    [is_professional], [created_at] and [updated_at]; neither [password] nor
    [hashed_password] is one of them, so a response built from a user
    entity carries exactly these fields and no password attribute. *)
Theorem UserResponse_fields
    (core_validate : FieldInfo -> value -> result value)
    (k : Z) (u : User) (o : Instance) :
  field_names UserResponse
  = field_names UserBase
    ++ ["id"; "is_professional"; "created_at"; "updated_at"]
  /\ ("password" ∉ field_names UserResponse)
  /\ ("hashed_password" ∉ field_names UserResponse)
  /\ (from_attributes core_validate UserResponse (user_attr k u) = Ok o ->
      dom (inst_attrs o) = list_to_set (field_names UserResponse)
      /\ getattr o "password"
         = Raise (no_attribute "UserResponse" "password")
      /\ getattr o "hashed_password"
         = Raise (no_attribute "UserResponse" "hashed_password")).
Proof.
  assert (Hp : "password" ∉ field_names UserResponse).
  { rewrite list_elem_of_In. vm_compute. intuition discriminate. }
  assert (Hh : "hashed_password" ∉ field_names UserResponse).
  { rewrite list_elem_of_In. vm_compute. intuition discriminate. }
  split; [reflexivity|]. split; [done|]. split; [done|].
  intros Ho. apply from_attributes_instance_of in Ho.
  split; [apply Ho|].
  split; by apply (getattr_not_field UserResponse).
Qed.

Lemma UserResponse_fields_witness :
  exists o,
    from_attributes accept_all UserResponse (user_attr 1 johndoe) = Ok o
    /\ dom (inst_attrs o) = list_to_set (field_names UserResponse)
    /\ getattr o "hashed_password"
       = Raise (no_attribute "UserResponse" "hashed_password").
Proof.
  destruct (from_attributes accept_all UserResponse (user_attr 1 johndoe))
    as [o|e] eqn:Ho; [|by vm_compute in Ho].
  exists o. split; [done|].
  destruct (UserResponse_fields accept_all 1 johndoe o) as (_ & _ & _ & H).
  destruct (H Ho) as (Hdom & _ & Hh). by split.
Defined.

(** ** The session *)

Lemma row_matches_id (uid : Z) (kv : Z * User) :
  row_matches [("id", VInt uid)] kv = bool_decide (kv.1 = uid).
Proof.
  unfold row_matches. simpl. rewrite andb_true_r.
  destruct (Z.eqb_spec kv.1 uid);
    [by rewrite bool_decide_true | by rewrite bool_decide_false].
Qed.

(** A query on the primary key finds the entity stored under it, and
    nothing else. *)
Lemma query_result_id (uid : Z) (m : gmap Z User) :
  head (query_result [("id", VInt uid)] m)
  = match m !! uid with Some _ => Some uid | None => None end.
Proof.
  unfold query_result.
  destruct (List.filter _ (map_to_list m)) as [|[k u] l] eqn:Hf; simpl.
  - destruct (m !! uid) as [u|] eqn:Hu; [|done].
    apply elem_of_map_to_list in Hu.
    assert (Hin : In (uid, u) (List.filter (row_matches [("id", VInt uid)])
                                 (map_to_list m))).
    { apply filter_In. split; [by apply list_elem_of_In|].
      rewrite row_matches_id. by apply bool_decide_eq_true. }
    rewrite Hf in Hin. destruct Hin.
  - assert (Hin : In (k, u) (List.filter (row_matches [("id", VInt uid)])
                               (map_to_list m))).
    { rewrite Hf. by left. }
    apply filter_In in Hin as [Hin Hk].
    rewrite row_matches_id in Hk. apply bool_decide_eq_true in Hk.
    simpl in Hk. subst k.
    apply list_elem_of_In, elem_of_map_to_list in Hin. by rewrite Hin.
Qed.

Lemma query_result_found (uid : Z) (m : gmap Z User) :
  head (query_result [("id", VInt uid)] m) = found uid m.
Proof. apply query_result_id. Qed.

Lemma select_filter_by_id (uid : Z) :
  select_filter_by [("id", VInt uid)] = Ok [("id", VInt uid)].
Proof. reflexivity. Qed.

Lemma fault_free_cases (n : nat) (fs : list (option exn)) :
  fault_free (S n) fs = true ->
  fs = [] \/ exists fs', fs = None :: fs' /\ fault_free n fs' = true.
Proof.
  destruct fs as [|[e|] fs']; simpl; intros H; [by left | done | right].
  by exists fs'.
Qed.

Lemma fault_free_le (n m : nat) (fs : list (option exn)) :
  (m <= n)%nat -> fault_free n fs = true -> fault_free m fs = true.
Proof.
  revert m fs. induction n as [|n IH]; intros m fs Hle H.
  - by replace m with O by lia.
  - destruct m as [|m]; [done|].
    destruct fs as [|[e|] fs]; simpl in *; [done | done |].
    apply IH; [lia | done].
Qed.


(** Unfolding the primitives of the session on a state given by its
    fields. *)
Ltac unfold_session :=
  cbv beta iota zeta delta
    [session_execute session_commit session_rollback session_refresh
     session_add entity_get entity_set or_else draw
     try_except bind lift ret raise record_call round_trip
     get_session set_store set_loaded logger after expire view
     rows pending faults trace log entropy loaded expire_on_commit fst snd];
  cbn [drop].

Section GetById.
Variables (uid : Z) (s : Session).

Let query : list (string * value) := [("id", VInt uid)].

(** The two round trips succeed: the answer is the reference to the
    entity, and the unit of work has been committed. *)
Lemma get_by_id_ok :
  fault_free 2 (faults s) = true ->
  get_by_id uid s
  = (Ok (found uid (view s)),
     after 2 [Execute query; Commit] [] (view s) ∅
       (expire s (loaded s ∪ list_to_set (query_result query (view s))))
       s).
Proof.
  destruct s as [r p fs tr lg en ld ex]. cbn [faults]. intros Hfs.
  unfold get_by_id, _fetch_user, _execute_query.
  unfold_session. rewrite select_filter_by_id.
  destruct fs as [|[e|] [|[e'|] fs]]; try done;
    cbn [rows pending faults trace log entropy loaded expire_on_commit fst snd
       drop];
    rewrite query_result_found, <- ?app_assoc, ?app_nil_r; reflexivity.
Qed.

(** [session.execute] raises a database error. *)
Lemma get_by_id_execute_error e fs :
  faults s = Some e :: fs -> is_SQLAlchemyError e = true ->
  get_by_id uid s
  = (Ok None,
     after 1 [Execute query; Rollback]
       [(ERROR, "Database error: " +:+ exn_str e)] (rows s) ∅ ∅ s).
Proof.
  destruct s as [r p fs' tr lg en ld ex]. cbn [faults]. intros -> He.
  unfold get_by_id, _fetch_user, _execute_query.
  unfold_session. rewrite select_filter_by_id.
  cbn [rows pending faults trace log entropy loaded expire_on_commit fst snd
       drop].
  rewrite He. cbn [rows pending faults trace log entropy loaded expire_on_commit fst snd
       drop].
  by rewrite <- ?app_assoc.
Qed.

(** [session.commit] raises a database error. *)
Lemma get_by_id_commit_error e fs :
  faults s = None :: Some e :: fs -> is_SQLAlchemyError e = true ->
  get_by_id uid s
  = (Ok None,
     after 2 [Execute query; Commit; Rollback]
       [(ERROR, "Database error: " +:+ exn_str e)] (rows s) ∅ ∅ s).
Proof.
  destruct s as [r p fs' tr lg en ld ex]. cbn [faults]. intros -> He.
  unfold get_by_id, _fetch_user, _execute_query.
  unfold_session. rewrite select_filter_by_id.
  cbn [rows pending faults trace log entropy loaded expire_on_commit fst snd
       drop].
  rewrite He. cbn [rows pending faults trace log entropy loaded expire_on_commit fst snd
       drop].
  by rewrite <- ?app_assoc.
Qed.

(** An exception that is not a [SQLAlchemyError] is not caught. *)
Lemma get_by_id_execute_raise e fs :
  faults s = Some e :: fs -> is_SQLAlchemyError e = false ->
  get_by_id uid s
  = (Raise e,
     after 1 [Execute query] [] (rows s) (pending s) (loaded s) s).
Proof.
  destruct s as [r p fs' tr lg en ld ex]. cbn [faults]. intros -> He.
  unfold get_by_id, _fetch_user, _execute_query.
  unfold_session. rewrite select_filter_by_id.
  cbn [rows pending faults trace log entropy loaded expire_on_commit fst snd
       drop].
  rewrite He. by rewrite ?app_nil_r.
Qed.

Lemma get_by_id_commit_raise e fs :
  faults s = None :: Some e :: fs -> is_SQLAlchemyError e = false ->
  get_by_id uid s
  = (Raise e,
     after 2 [Execute query; Commit] [] (rows s) (pending s)
       (loaded s ∪ list_to_set (query_result query (view s))) s).
Proof.
  destruct s as [r p fs' tr lg en ld ex]. cbn [faults]. intros -> He.
  unfold get_by_id, _fetch_user, _execute_query.
  unfold_session. rewrite select_filter_by_id.
  cbn [rows pending faults trace log entropy loaded expire_on_commit fst snd
       drop].
  rewrite He. by rewrite <- ?app_assoc, ?app_nil_r.
Qed.

(** The five cases are all there is. *)
Lemma fault_cases :
  fault_free 2 (faults s) = true
  \/ (exists e fs, faults s = Some e :: fs)
  \/ (exists e fs, faults s = None :: Some e :: fs).
Proof.
  destruct (faults s) as [|[e|] [|[e'|] fs]]; eauto.
Qed.
End GetById.




(** The handler of [_execute_query] names [SQLAlchemyError]: any other
    exception leaves [get_by_id] as it came. *)
Lemma get_by_id_propagates (uid : Z) (s : Session) (e : exn)
    (fs : list (option exn)) :
  is_SQLAlchemyError e = false ->
  faults s = Some e :: fs \/ faults s = None :: Some e :: fs ->
  (get_by_id uid s).1 = Raise e.
Proof.
  intros He [Hfs|Hfs].
  - by rewrite (get_by_id_execute_raise uid s e fs Hfs He).
  - by rewrite (get_by_id_commit_raise uid s e fs Hfs He).
Qed.

(** ** [upgrade_user_to_pro] *)

Ltac reduce_session :=
  repeat (cbv beta iota zeta delta
            [rows pending faults trace log entropy loaded expire_on_commit
             fst snd];
          cbn [drop];
          first [ rewrite (left_id_L (∅ : gmap Z User) (∪))
                | rewrite <- insert_union_l
                | rewrite <- insert_union_singleton_l
                | rewrite lookup_insert_eq
                | rewrite delete_empty
                | rewrite delete_insert_eq
                | rewrite insert_insert_eq
                | rewrite app_nil_r
                | rewrite <- app_assoc
                | match goal with
                  | H : ?m !! ?k = Some _ |- context [?m !! ?k] => rewrite H
                  | H : bool_decide ?P = _ |- context [bool_decide ?P] =>
                      rewrite H
                  end ]).

Ltac split_faults fs :=
  destruct fs as [|[?|] [|[?|] [|[?|] [|[?|] fs]]]]; try done.

Lemma upgrade_user_to_pro_ok (uid : Z) (s : Session) (u : User) :
  view s !! uid = Some u ->
  fault_free 4 (faults s) = true ->
  upgrade_user_to_pro uid s
  = (Ok (Some uid),
     after 4 [Execute [("id", VInt uid)]; Commit; Commit; Refresh uid]
       [(INFO, "User " +:+ pretty uid +:+ " upgraded to PRO status.")]
       (<[uid := set_is_pro true u]> (view s)) ∅
       (expire s (expire s (loaded s ∪ list_to_set
                              (query_result [("id", VInt uid)] (view s))))
        ∪ {[ uid ]}) s).
Proof.
  intros Hu Hfs. unfold upgrade_user_to_pro, try_except.
  unfold bind at 1.
  rewrite (get_by_id_ok uid s (fault_free_le 4 2 _ ltac:(lia) Hfs)).
  unfold found. rewrite Hu.
  destruct s as [r p fs tr lg en ld ex].
  unfold view in Hu. cbn [rows pending faults] in Hu, Hfs.
  split_faults fs; unfold_session; reduce_session; reflexivity.
Qed.




(** A commit that fails after the flag was set: the answer is [None], and
    the table is as before. *)
Example upgrade_user_to_pro_commit_fails :
  let s := {| rows := {[ 1%Z := johndoe ]}; pending := ∅;
              faults := [None; None; Some (SQLAlchemyError "deadlock")];
              trace := []; log := []; entropy := 0; loaded := ∅;
              expire_on_commit := true |} in
  (upgrade_user_to_pro 1 s).1 = Ok None
  /\ rows (upgrade_user_to_pro 1 s).2 = {[ 1%Z := johndoe ]}.
Proof. split; reflexivity. Qed.

(** ** [create_user] *)

Lemma UserCreate_has_no_link_attribute (o : Instance) :
  instance_of UserCreate o ->
  (exists pw, getattr o "password" = Ok pw)
  /\ (exists e, getattr o "email" = Ok e)
  /\ getattr o "github_link"
     = Raise (no_attribute "UserCreate" "github_link").
Proof.
  intros Ho. split; [|split].
  - apply (getattr_field UserCreate); [done|].
    apply list_elem_of_In. vm_compute. tauto.
  - apply (getattr_field UserCreate); [done|].
    apply list_elem_of_In. vm_compute. tauto.
  - apply (getattr_not_field UserCreate); [done|].
    rewrite list_elem_of_In. vm_compute. intuition discriminate.
Qed.

Section CreateUser.
Variable hash_password : value -> result value.
Variables generate_verification_token generate_nickname : nat -> result value.

Let create := create_user hash_password generate_verification_token
                generate_nickname.

(** C2: on every instance of [UserCreate], [create_user] returns [None]:
    the exception is caught before any call reaches the session, so that
    no entity is added and nothing is committed; when the password could
    be hashed, the exception is the [AttributeError] for [github_link]. *)
Theorem create_user_returns_None (o : Instance) (s : Session) :
  instance_of UserCreate o ->
  (create o s).1 = Ok None
  /\ rows (create o s).2 = rows s
  /\ pending (create o s).2 = pending s
  /\ trace (create o s).2 = trace s
  /\ faults (create o s).2 = faults s
  /\ (forall pw hashed,
        getattr o "password" = Ok pw -> hash_password pw = Ok hashed ->
        log (create o s).2
        = log s ++ [(ERROR, "Error creating user: "
                              +:+ exn_str (no_attribute "UserCreate"
                                                        "github_link"))]).
Proof.
  intros Ho.
  destruct (UserCreate_has_no_link_attribute o Ho)
    as ((pw & Hpw) & (e & He) & Hlink).
  subst create. unfold create_user, try_except, bind, lift, ret, logger.
  rewrite Hpw, He, Hlink.
  destruct (hash_password pw) as [hashed|err] eqn:Hh; cbn;
    do 5 (split; [reflexivity|]).
  - intros pw' hashed' [= <-] _. reflexivity.
  - intros pw' hashed' [= <-] Hh'. congruence.
Qed.
End CreateUser.

Lemma create_request_is_UserCreate : instance_of UserCreate create_request.
Proof.
  split; [reflexivity|]. apply (bool_decide_unpack _). vm_compute. exact I.
Qed.

Lemma create_user_returns_None_witness :
  (create_user example_hash example_token example_nickname
     create_request one_user).1 = Ok None
  /\ rows (create_user example_hash example_token example_nickname
             create_request one_user).2 = rows one_user.
Proof.
  destruct (create_user_returns_None example_hash example_token
              example_nickname create_request one_user
              create_request_is_UserCreate) as (H1 & H2 & _).
  split; [exact H1 | exact H2].
Defined.

(** C1: on the request
    [UserCreate(email="a@b.com", password="Secure*1234", role=ADMIN)], which
    the constructor accepts, [create_user] stores no user at all: it
    returns [None], the table is as before, no call reached the session,
    and the log says why. *)
Theorem create_user_example_stores_nothing :
  construct accept_all UserCreate create_payload = Ok create_request
  /\ create_user example_hash example_token example_nickname
       create_request one_user
     = (Ok None,
        {| rows := {[ 1%Z := johndoe ]}; pending := ∅; faults := [];
           trace := [];
           log := [(ERROR, "Error creating user: 'UserCreate' object has no attribute 'github_link'")];
           entropy := 0; loaded := ∅; expire_on_commit := true |}).
Proof. split; reflexivity. Qed.

(** ** [update_user_profile] *)

Lemma UserUpdate_has_no_link_attribute (o : Instance) :
  instance_of UserUpdate o ->
  getattr o "github_link" = Raise (no_attribute "UserUpdate" "github_link").
Proof.
  intros Ho. apply (getattr_not_field UserUpdate); [done|].
  rewrite list_elem_of_In. vm_compute. intuition discriminate.
Qed.

(** The same holds of the first class of that name: its URL fields are
    [github_profile_url], [linkedin_profile_url], [profile_picture_url]. *)
Lemma first_UserUpdate_has_no_link_attribute (o : Instance) :
  instance_of UserUpdate_first o ->
  getattr o "github_link" = Raise (no_attribute "UserUpdate" "github_link").
Proof.
  intros Ho. apply (getattr_not_field UserUpdate_first); [done|].
  rewrite list_elem_of_In. vm_compute. intuition discriminate.
Qed.

(** What [update_user_profile] does when the first attribute it reads from
    the update is missing. *)
Lemma update_user_profile_attribute_error (uid : Z) (o : Instance)
    (s : Session) (cls : string) :
  getattr o "github_link" = Raise (no_attribute cls "github_link") ->
  exists s', update_user_profile uid o s = (Ok None, s')
  /\ (rows s' = rows s \/ rows s' = view s)
  /\ (pending s' = pending s \/ pending s' = ∅)
  /\ (exists calls, trace s' = trace s ++ Execute [("id", VInt uid)] :: calls
                    /\ get_by_id_calls calls).
Proof.
  intros Hlink.
  unfold update_user_profile, try_except. unfold bind at 1.
  unfold get_by_id_calls.
  destruct (fault_cases s) as [Hok | [(e & fs & Hfs) | (e & fs & Hfs)]].
  - rewrite (get_by_id_ok uid s Hok). unfold found.
    destruct (view s !! uid) as [u|] eqn:Hu.
    + unfold or_else, bind, lift. rewrite Hlink.
      unfold logger, ret, after. cbn [fst snd rows pending trace is_Exception].
      eexists. split; [reflexivity|]. cbn [rows pending trace].
      split; [by right|]. split; [by right|].
      exists [Commit]. split; [done | tauto].
    + unfold bind, logger, ret, after. cbn [fst snd rows pending trace].
      eexists. split; [reflexivity|]. cbn [rows pending trace].
      split; [by right|]. split; [by right|].
      exists [Commit]. split; [done | tauto].
  - destruct (is_SQLAlchemyError e) eqn:He.
    + rewrite (get_by_id_execute_error uid s e fs Hfs He).
      unfold bind, logger, ret, after. cbn [fst snd rows pending trace].
      eexists. split; [reflexivity|]. cbn [rows pending trace].
      split; [by left|]. split; [by right|].
      exists [Rollback]. split; [done | tauto].
    + rewrite (get_by_id_execute_raise uid s e fs Hfs He).
      unfold bind, logger, ret, after. cbn [fst snd rows pending trace is_Exception].
      eexists. split; [reflexivity|]. cbn [rows pending trace].
      split; [by left|]. split; [by left|].
      exists []. split; [done | tauto].
  - destruct (is_SQLAlchemyError e) eqn:He.
    + rewrite (get_by_id_commit_error uid s e fs Hfs He).
      unfold bind, logger, ret, after. cbn [fst snd rows pending trace].
      eexists. split; [reflexivity|]. cbn [rows pending trace].
      split; [by left|]. split; [by right|].
      exists [Commit; Rollback]. split; [done | tauto].
    + rewrite (get_by_id_commit_raise uid s e fs Hfs He).
      unfold bind, logger, ret, after. cbn [fst snd rows pending trace is_Exception].
      eexists. split; [reflexivity|]. cbn [rows pending trace].
      split; [by left|]. split; [by left|].
      exists [Commit]. split; [done | tauto].
Qed.

(** C4: on every instance of the class that the service imports as
    [UserUpdate], [update_user_profile] returns [None]: reading
    [github_link] raises before any attribute of the entity is assigned and
    before the commit of the method. The only calls the session receives are
    those of [get_by_id]; the rows and the unit of work are what they were,
    up to the commit or rollback of [get_by_id], and a session with nothing
    pending keeps its table as it is. *)
Theorem update_user_profile_returns_None (uid : Z) (o : Instance)
    (s : Session) :
  instance_of UserUpdate o ->
  exists s', update_user_profile uid o s = (Ok None, s')
  /\ (rows s' = rows s \/ rows s' = view s)
  /\ (pending s' = pending s \/ pending s' = ∅)
  /\ (pending s = ∅ -> rows s' = rows s /\ pending s' = ∅)
  /\ (exists calls, trace s' = trace s ++ Execute [("id", VInt uid)] :: calls
                    /\ get_by_id_calls calls).
Proof.
  intros Ho.
  destruct (update_user_profile_attribute_error uid o s "UserUpdate"
              (UserUpdate_has_no_link_attribute o Ho))
    as (s' & Hrun & Hrows & Hpending & Hcalls).
  exists s'. split; [done|]. split; [done|]. split; [done|].
  split; [|done].
  intros Hclean. split.
  - destruct Hrows as [->| ->]; [done|].
    unfold view. by rewrite Hclean, (left_id_L ∅ (∪)).
  - destruct Hpending as [->| ->]; done.
Qed.

Lemma update_request_is_UserUpdate : instance_of UserUpdate update_request.
Proof.
  split; [reflexivity|]. apply (bool_decide_unpack _). vm_compute. exact I.
Qed.

Lemma update_user_profile_returns_None_witness :
  exists s', update_user_profile 1 update_request one_user = (Ok None, s')
             /\ rows s' = rows one_user.
Proof.
  destruct (update_user_profile_returns_None 1 update_request one_user
              update_request_is_UserUpdate)
    as (s' & Hrun & _ & _ & Hclean & _).
  exists s'. split; [exact Hrun|]. exact (proj1 (Hclean eq_refl)).
Defined.

(** C3: the stored user 1 has a GitHub link; the update
    [UserUpdate(github_profile_url="https://github.com/new")] is a valid
    instance with a truthy URL, and [update_user_profile] writes nothing: it
    returns [None] and the row keeps its old link. *)
Theorem update_user_profile_example_writes_nothing :
  construct accept_all UserUpdate
    {[ "github_profile_url" := VStr (py "https://github.com/new") ]}
  = Ok update_request
  /\ update_user_profile 1 update_request one_user
     = (Ok None,
        {| rows := {[ 1%Z := johndoe ]}; pending := ∅; faults := [];
           trace := [Execute [("id", VInt 1)]; Commit];
           log := [(ERROR, "Error updating user profile: 'UserUpdate' object has no attribute 'github_link'")];
           entropy := 0; loaded := ∅; expire_on_commit := true |})
  /\ github_link johndoe = VStr (py "https://github.com/johndoe").
Proof. repeat split; reflexivity. Qed.

(** ** What the two methods do on objects that have the attributes

    The bodies after the attribute reads are reached only by objects of a
    class that is not one of the schemas. *)

Lemma elem_of_query_result_id (uid : Z) (m : gmap Z User) (u : User)
    (l : gset Z) :
  m !! uid = Some u ->
  uid ∈ l ∪ list_to_set (query_result [("id", VInt uid)] m).
Proof.
  intros Hu. apply elem_of_union_r, elem_of_list_to_set.
  unfold query_result. apply list_elem_of_fmap. exists (uid, u).
  split; [done|]. apply list_elem_of_In, filter_In. split.
  - by apply list_elem_of_In, elem_of_map_to_list.
  - rewrite row_matches_id. by apply bool_decide_eq_true.
Qed.

(** On a session that keeps its entities loaded after a commit, the stored
    links can be read, and the merge is the one of lines 68 to 70. *)
Lemma update_user_profile_merge (uid : Z) (o : Instance) (s : Session)
    (u : User) (github linkedin photo : value) :
  getattr o "github_link" = Ok github ->
  getattr o "linkedin_link" = Ok linkedin ->
  getattr o "profile_photo_url" = Ok photo ->
  view s !! uid = Some u ->
  expire_on_commit s = false ->
  fault_free 4 (faults s) = true ->
  exists l,
    update_user_profile uid o s
    = (Ok (Some uid),
       after 4 [Execute [("id", VInt uid)]; Commit; Commit; Refresh uid] []
         (<[uid := set_profile_photo_url (py_or photo (profile_photo_url u))
                     (set_linkedin_link (py_or linkedin (linkedin_link u))
                        (set_github_link (py_or github (github_link u)) u))]>
            (view s)) ∅ l s).
Proof.
  intros Hg Hl Hp Hu Hex Hfs.
  unfold update_user_profile, try_except. unfold bind at 1.
  rewrite (get_by_id_ok uid s (fault_free_le 4 2 _ ltac:(lia) Hfs)).
  unfold found. rewrite Hu, Hg, Hl, Hp.
  destruct s as [r p fs tr lg en ld ex].
  unfold view in Hu. cbn [rows pending faults expire_on_commit] in Hu, Hfs, Hex.
  subst ex.
  assert (Hb : bool_decide
                 (uid ∈ ld ∪ list_to_set
                              (query_result [("id", VInt uid)] (p ∪ r)))
               = true).
  { apply bool_decide_eq_true_2. by eapply elem_of_query_result_id. }
  unfold py_or. unfold_session. rewrite ?Hb.
  destruct (truthy github); reduce_session;
    destruct (truthy linkedin); reduce_session;
    destruct (truthy photo); reduce_session;
    split_faults fs; reduce_session; eexists; reflexivity.
Qed.

Lemma update_user_profile_with_links (uid : Z) (s : Session) (u : User)
    (github linkedin photo : value) :
  view s !! uid = Some u ->
  expire_on_commit s = false ->
  fault_free 4 (faults s) = true ->
  let merged :=
    set_profile_photo_url (py_or photo (profile_photo_url u))
      (set_linkedin_link (py_or linkedin (linkedin_link u))
         (set_github_link (py_or github (github_link u)) u)) in
  exists l,
    update_user_profile uid (profile_links github linkedin photo) s
    = (Ok (Some uid),
       after 4 [Execute [("id", VInt uid)]; Commit; Commit; Refresh uid] []
         (<[uid := merged]> (view s)) ∅ l s).
Proof.
  intros Hu Hex Hfs merged. subst merged.
  by apply update_user_profile_merge.
Qed.

(** With only [github_link] set, the two other links keep their values. *)
Corollary update_user_profile_only_github (uid : Z) (s : Session) (u : User)
    (github : value) :
  view s !! uid = Some u ->
  expire_on_commit s = false ->
  fault_free 4 (faults s) = true ->
  truthy github = true ->
  rows (update_user_profile uid (profile_links github VNone (VStr [])) s).2
    !! uid
  = Some (set_github_link github u).
Proof.
  intros Hu Hex Hfs Hg.
  destruct (update_user_profile_with_links uid s u github VNone (VStr [])
              Hu Hex Hfs) as [l ->].
  unfold after. cbn [snd rows]. rewrite lookup_insert_eq.
  unfold py_or. rewrite Hg. by destruct u.
Qed.

Lemma create_user_with_links
    (hash_password : value -> result value)
    (generate_verification_token generate_nickname : nat -> result value)
    (s : Session) (email_ password github linkedin photo : value)
    (hashed token nick : value) :
  hash_password password = Ok hashed ->
  generate_verification_token (entropy s) = Ok token ->
  generate_nickname (S (entropy s)) = Ok nick ->
  fault_free 2 (faults s) = true ->
  let k := next_id (view s) in
  let new_user :=
    {| email := email_; hashed_password := hashed; nickname := nick;
       first_name := VNone; last_name := VNone; bio := VNone;
       github_link := github; linkedin_link := linkedin;
       profile_photo_url := photo; role := USER; is_pro := false;
       verification_token := token; created_at := VNone;
       updated_at := VNone |} in
  create_user hash_password generate_verification_token generate_nickname
    (signup email_ password github linkedin photo) s
  = (Ok (Some k),
     {| rows := <[k := new_user]> (view s); pending := ∅;
        faults := drop 2 (faults s);
        trace := trace s ++ [Add k; Commit; Refresh k];
        log := log s; entropy := S (S (entropy s));
        loaded := expire s (loaded s ∪ {[ next_id (view s) ]})
                  ∪ {[ next_id (view s) ]};
        expire_on_commit := expire_on_commit s |}).
Proof.
  intros Hh Ht Hn Hfs k new_user. subst k new_user.
  unfold create_user.
  change (getattr (signup email_ password github linkedin photo) "password")
    with (Ok (A:=value) password).
  change (getattr (signup email_ password github linkedin photo) "email")
    with (Ok (A:=value) email_).
  change (getattr (signup email_ password github linkedin photo) "github_link")
    with (Ok (A:=value) github).
  change (getattr (signup email_ password github linkedin photo)
            "linkedin_link")
    with (Ok (A:=value) linkedin).
  change (getattr (signup email_ password github linkedin photo)
            "profile_photo_url")
    with (Ok (A:=value) photo).
  destruct s as [r p fs tr lg en ld ex]. cbn [entropy faults] in Ht, Hn, Hfs.
  unfold_session. rewrite Hh. cbn [rows pending faults trace log entropy loaded expire_on_commit].
  rewrite Ht. cbn [rows pending faults trace log entropy loaded expire_on_commit].
  rewrite Hn.
  destruct fs as [|[?|] [|[?|] fs]]; try done; reduce_session; reflexivity.
Qed.

(** On such an object the role stored is [USER] and the password stored is
    the hash. *)
Example create_user_signup :
  let out := create_user example_hash example_token example_nickname
               (signup (VStr (py "a@b.com")) (VStr (py "Secure*1234"))
                       VNone VNone VNone) one_user in
  out.1 = Ok (Some 2%Z)
  /\ (role <$> rows out.2 !! 2%Z) = Some USER
  /\ (hashed_password <$> rows out.2 !! 2%Z)
     = Some (VStr (py "$2b$4321*eruceS")).
Proof. repeat split; reflexivity. Qed.

(** ** [_fetch_user] with any filters *)

Lemma _fetch_user_ok (filters : list (string * value)) (s : Session) :
  select_filter_by filters = Ok filters ->
  fault_free 2 (faults s) = true ->
  _fetch_user filters s
  = (Ok (head (query_result filters (view s))),
     after 2 [Execute filters; Commit] [] (view s) ∅
       (expire s (loaded s ∪ list_to_set (query_result filters (view s))))
       s).
Proof.
  intros Hq Hfs. destruct s as [r p fs tr lg en ld ex]. cbn [faults] in Hfs.
  unfold _fetch_user, _execute_query.
  unfold_session. rewrite Hq.
  destruct fs as [|[e|] [|[e'|] fs]]; try done;
    cbn [rows pending faults trace log entropy loaded expire_on_commit fst snd
       drop];
    rewrite <- ?app_assoc, ?app_nil_r; reflexivity.
Qed.

Lemma head_query_result_Some (filters : list (string * value))
    (m : gmap Z User) (k : Z) :
  head (query_result filters m) = Some k ->
  exists u, m !! k = Some u /\ row_matches filters (k, u) = true.
Proof.
  unfold query_result. intros H.
  destruct (List.filter (row_matches filters) (map_to_list m))
    as [|[k' u] l] eqn:Hf; [done|].
  simpl in H. injection H as ->.
  assert (Hin : In (k, u) (List.filter (row_matches filters) (map_to_list m))).
  { rewrite Hf. by left. }
  apply filter_In in Hin as [Hin Hm].
  exists u. split; [|done]. by apply elem_of_map_to_list, list_elem_of_In.
Qed.

Lemma head_query_result_None (filters : list (string * value))
    (m : gmap Z User) :
  head (query_result filters m) = None ->
  forall k u, m !! k = Some u -> row_matches filters (k, u) = false.
Proof.
  unfold query_result. intros H k u Hk.
  destruct (List.filter (row_matches filters) (map_to_list m))
    as [|[k' u'] l] eqn:Hf; [|done].
  destruct (row_matches filters (k, u)) eqn:Hm; [|done].
  assert (Hin : In (k, u) (List.filter (row_matches filters) (map_to_list m))).
  { apply filter_In. split; [|done].
    by apply list_elem_of_In, elem_of_map_to_list. }
  rewrite Hf in Hin. destruct Hin.
Qed.

(** X1: on a session whose database answers, [_fetch_user] with filters on
    attributes of the entity returns an entity that satisfies every filter,
    and returns [None] only when no entity of the session does. *)
Theorem _fetch_user_sound_and_complete (filters : list (string * value))
    (s : Session) :
  select_filter_by filters = Ok filters ->
  fault_free 2 (faults s) = true ->
  (exists k u, (_fetch_user filters s).1 = Ok (Some k)
               /\ view s !! k = Some u
               /\ row_matches filters (k, u) = true)
  \/ ((_fetch_user filters s).1 = Ok None
      /\ forall k u, view s !! k = Some u ->
                     row_matches filters (k, u) = false).
Proof.
  intros Hq Hfs. rewrite (_fetch_user_ok filters s Hq Hfs). cbn [fst].
  destruct (head (query_result filters (view s))) as [k|] eqn:Hh.
  - left. apply head_query_result_Some in Hh as (u & Hu & Hm).
    by exists k, u.
  - right. split; [done|]. by apply head_query_result_None.
Qed.

Lemma _fetch_user_sound_and_complete_witness :
  (exists k u,
     (_fetch_user [("role", VEnum AUTHENTICATED); ("is_pro", VBool false)]
        one_user).1 = Ok (Some k)
     /\ view one_user !! k = Some u
     /\ row_matches [("role", VEnum AUTHENTICATED); ("is_pro", VBool false)]
          (k, u) = true)
  \/ ((_fetch_user [("role", VEnum AUTHENTICATED); ("is_pro", VBool false)]
         one_user).1 = Ok None
      /\ forall k u, view one_user !! k = Some u ->
           row_matches [("role", VEnum AUTHENTICATED); ("is_pro", VBool false)]
             (k, u) = false).
Proof.
  exact (_fetch_user_sound_and_complete
           [("role", VEnum AUTHENTICATED); ("is_pro", VBool false)] one_user
           eq_refl eq_refl).
Defined.

(** X2: a keyword that is not an attribute of the entity is refused when
    the query is built, which is outside the [try] of [_execute_query]:
    [_fetch_user] raises, the session receives no call and nothing is
    logged. *)
Theorem _fetch_user_unknown_keyword (filters : list (string * value))
    (s : Session) (name : string) (v : value) :
  (name, v) ∈ filters ->
  user_attr 0 blank_user name = None ->
  _fetch_user filters s
  = (Raise (SQLAlchemyError "Entity namespace for User has no property"), s).
Proof.
  intros Hin Hname. unfold _fetch_user, bind, lift, select_filter_by.
  destruct (forallb _ filters) eqn:Hall; [|done].
  rewrite forallb_forall in Hall.
  specialize (Hall (name, v) (proj1 (list_elem_of_In _ _) Hin)).
  simpl in Hall. by rewrite Hname in Hall.
Qed.

Lemma _fetch_user_unknown_keyword_witness :
  _fetch_user [("user_id", VInt 1)] one_user
  = (Raise (SQLAlchemyError "Entity namespace for User has no property"),
     one_user).
Proof.
  apply (_fetch_user_unknown_keyword _ one_user "user_id" (VInt 1)).
  - by apply list_elem_of_singleton.
  - reflexivity.
Defined.

(** ** What a lookup does to the session *)

(** X3: [get_by_id] is not a read-only call. When the database answers, it
    commits what the caller had pending, whether a user is found or not;
    when the database fails with a [SQLAlchemyError], it rolls back, and
    what the caller had pending is lost. *)
Theorem get_by_id_commits_or_discards (uid : Z) (s : Session) :
  (fault_free 2 (faults s) = true ->
     rows (get_by_id uid s).2 = pending s ∪ rows s
     /\ pending (get_by_id uid s).2 = ∅
     /\ trace (get_by_id uid s).2
        = trace s ++ [Execute [("id", VInt uid)]; Commit])
  /\ (forall msg fs,
        faults s = Some (SQLAlchemyError msg) :: fs ->
        rows (get_by_id uid s).2 = rows s
        /\ pending (get_by_id uid s).2 = ∅
        /\ trace (get_by_id uid s).2
           = trace s ++ [Execute [("id", VInt uid)]; Rollback]).
Proof.
  split.
  - intros Hfs. by rewrite (get_by_id_ok uid s Hfs).
  - intros msg fs Hfs.
    by rewrite (get_by_id_execute_error uid s _ fs Hfs eq_refl).
Qed.

Lemma get_by_id_commits_or_discards_witness :
  rows (get_by_id 7 one_user_dirty).2 !! 1%Z = Some (set_is_pro true johndoe)
  /\ pending (get_by_id 1 one_user_db_down).2 = ∅.
Proof.
  split.
  - destruct (proj1 (get_by_id_commits_or_discards 7 one_user_dirty) eq_refl)
      as (-> & _ & _).
    reflexivity.
  - destruct (proj2 (get_by_id_commits_or_discards 1 one_user_db_down)
                "connection refused" [] eq_refl) as (_ & H & _).
    exact H.
Defined.

(** ** Failures inside [upgrade_user_to_pro] *)

(** X5: when the commit of [upgrade_user_to_pro] itself fails, with any
    exception, the method returns [None] and logs the error; the table is
    what it was, and the session is not rolled back (the handler of the
    method only logs, unlike that of [_execute_query]). *)
Theorem upgrade_user_to_pro_commit_failure (uid : Z) (s : Session) (u : User)
    (e : exn) (fs : list (option exn)) :
  view s !! uid = Some u ->
  faults s = None :: None :: Some e :: fs ->
  (upgrade_user_to_pro uid s).1 = Ok None
  /\ rows (upgrade_user_to_pro uid s).2 = view s
  /\ trace (upgrade_user_to_pro uid s).2
     = trace s ++ [Execute [("id", VInt uid)]; Commit; Commit]
  /\ log (upgrade_user_to_pro uid s).2
     = log s ++ [(ERROR, "Error upgrading user to PRO: " +:+ exn_str e)].
Proof.
  intros Hu Hfs.
  assert (Hrun : exists p l,
    upgrade_user_to_pro uid s
    = (Ok None,
       {| rows := view s; pending := p; faults := fs;
          trace := trace s ++ [Execute [("id", VInt uid)]; Commit; Commit];
          log := log s ++ [(ERROR, "Error upgrading user to PRO: "
                                     +:+ exn_str e)];
          entropy := entropy s; loaded := l;
          expire_on_commit := expire_on_commit s |})).
  { unfold upgrade_user_to_pro, try_except. unfold bind at 1.
    rewrite (get_by_id_ok uid s) by (by rewrite Hfs).
    unfold found. rewrite Hu.
    destruct s as [r p fs' tr lg en ld ex].
    unfold view in Hu. cbn [rows pending faults] in Hu, Hfs. subst fs'.
    unfold_session. reduce_session. cbn [is_Exception].
    eexists _, _. reflexivity. }
  destruct Hrun as (p & l & ->). by cbn [fst snd rows trace log].
Qed.

Lemma upgrade_user_to_pro_commit_failure_witness :
  (upgrade_user_to_pro 1 one_user_commit_fails).1 = Ok None
  /\ rows (upgrade_user_to_pro 1 one_user_commit_fails).2
     = view one_user_commit_fails.
Proof.
  destruct (upgrade_user_to_pro_commit_failure 1 one_user_commit_fails
              johndoe (SQLAlchemyError "deadlock detected") []
              eq_refl eq_refl) as (H1 & H2 & _).
  by split.
Defined.

(** X6: when the commit succeeds and the refresh that follows fails, the
    method returns [None] although the upgrade has been committed: the row
    carries the flag. *)
Theorem upgrade_user_to_pro_refresh_failure (uid : Z) (s : Session) (u : User)
    (e : exn) (fs : list (option exn)) :
  view s !! uid = Some u ->
  faults s = None :: None :: None :: Some e :: fs ->
  (upgrade_user_to_pro uid s).1 = Ok None
  /\ rows (upgrade_user_to_pro uid s).2 !! uid = Some (set_is_pro true u)
  /\ log (upgrade_user_to_pro uid s).2
     = log s ++ [(ERROR, "Error upgrading user to PRO: " +:+ exn_str e)].
Proof.
  intros Hu Hfs.
  assert (Hrun : exists l,
    upgrade_user_to_pro uid s
    = (Ok None,
       {| rows := <[uid := set_is_pro true u]> (view s); pending := ∅;
          faults := fs;
          trace := trace s ++ [Execute [("id", VInt uid)]; Commit; Commit;
                               Refresh uid];
          log := log s ++ [(ERROR, "Error upgrading user to PRO: "
                                     +:+ exn_str e)];
          entropy := entropy s; loaded := l;
          expire_on_commit := expire_on_commit s |})).
  { unfold upgrade_user_to_pro, try_except. unfold bind at 1.
    rewrite (get_by_id_ok uid s) by (by rewrite Hfs).
    unfold found. rewrite Hu.
    destruct s as [r p fs' tr lg en ld ex].
    unfold view in Hu. cbn [rows pending faults] in Hu, Hfs. subst fs'.
    unfold_session. reduce_session. cbn [is_Exception].
    reduce_session. eexists. reflexivity. }
  destruct Hrun as [l ->]. cbn [fst snd rows log].
  by rewrite lookup_insert_eq.
Qed.

Lemma upgrade_user_to_pro_refresh_failure_witness :
  let s := {| rows := {[ 1%Z := johndoe ]}; pending := ∅;
              faults := [None; None; None;
                         Some (SQLAlchemyError "connection lost")];
              trace := []; log := []; entropy := 0; loaded := ∅;
              expire_on_commit := true |} in
  (upgrade_user_to_pro 1 s).1 = Ok None
  /\ rows (upgrade_user_to_pro 1 s).2 !! 1%Z = Some (set_is_pro true johndoe).
Proof.
  intros s.
  destruct (upgrade_user_to_pro_refresh_failure 1 s johndoe
              (SQLAlchemyError "connection lost") [] eq_refl eq_refl)
    as (H1 & H2 & _).
  by split.
Defined.

(** X7: a successful [upgrade_user_to_pro] changes nothing but the flag:
    the other attributes of the user are what the session held, and so is
    every other user. *)
Theorem upgrade_user_to_pro_frame (uid : Z) (s : Session) (u : User) :
  view s !! uid = Some u ->
  fault_free 4 (faults s) = true ->
  (exists u', rows (upgrade_user_to_pro uid s).2 !! uid = Some u'
     /\ is_pro u' = true
     /\ email u' = email u /\ hashed_password u' = hashed_password u
     /\ nickname u' = nickname u /\ role u' = role u
     /\ github_link u' = github_link u /\ linkedin_link u' = linkedin_link u
     /\ profile_photo_url u' = profile_photo_url u
     /\ verification_token u' = verification_token u)
  /\ (forall k, k <> uid ->
        rows (upgrade_user_to_pro uid s).2 !! k = view s !! k).
Proof.
  intros Hu Hfs. rewrite (upgrade_user_to_pro_ok uid s u Hu Hfs).
  unfold after. cbn [snd rows]. split.
  - exists (set_is_pro true u). rewrite lookup_insert_eq. by repeat split.
  - intros k Hk. by rewrite lookup_insert_ne.
Qed.

Lemma upgrade_user_to_pro_frame_witness :
  exists u', rows (upgrade_user_to_pro 1 one_user).2 !! 1%Z = Some u'
             /\ is_pro u' = true /\ role u' = AUTHENTICATED.
Proof.
  destruct (proj1 (upgrade_user_to_pro_frame 1 one_user johndoe
                     eq_refl eq_refl))
    as (u' & Hu' & Hpro & _ & _ & _ & Hrole & _).
  exists u'. by repeat split.
Defined.

(** ** [update_user_profile] on any object with the links *)

(** Three truthy links: nothing is read from the entity. *)
Lemma update_user_profile_all_truthy (uid : Z) (o : Instance) (s : Session)
    (u : User) (github linkedin photo : value) :
  getattr o "github_link" = Ok github ->
  getattr o "linkedin_link" = Ok linkedin ->
  getattr o "profile_photo_url" = Ok photo ->
  truthy github = true -> truthy linkedin = true -> truthy photo = true ->
  view s !! uid = Some u ->
  fault_free 4 (faults s) = true ->
  exists l,
    update_user_profile uid o s
    = (Ok (Some uid),
       after 4 [Execute [("id", VInt uid)]; Commit; Commit; Refresh uid] []
         (<[uid := set_profile_photo_url photo
                     (set_linkedin_link linkedin
                        (set_github_link github u))]> (view s)) ∅ l s).
Proof.
  intros Hg Hl Hp Tg Tl Tp Hu Hfs.
  unfold update_user_profile, try_except. unfold bind at 1.
  rewrite (get_by_id_ok uid s (fault_free_le 4 2 _ ltac:(lia) Hfs)).
  unfold found. rewrite Hu, Hg, Hl, Hp.
  destruct s as [r p fs tr lg en ld ex].
  unfold view in Hu. cbn [rows pending faults] in Hu, Hfs.
  split_faults fs; unfold_session; rewrite Tg, Tl, Tp; reduce_session;
    eexists; reflexivity.
Qed.

(** A falsy link on a session that expires its entities on commit: the
    read of the stored link raises, and the handler answers [None]. *)
Lemma update_user_profile_expired_read (uid : Z) (o : Instance) (s : Session)
    (u : User) (github linkedin photo : value) :
  getattr o "github_link" = Ok github ->
  getattr o "linkedin_link" = Ok linkedin ->
  getattr o "profile_photo_url" = Ok photo ->
  truthy github && truthy linkedin && truthy photo = false ->
  view s !! uid = Some u ->
  expire_on_commit s = true ->
  fault_free 2 (faults s) = true ->
  exists p,
    update_user_profile uid o s
    = (Ok None,
       after 2 [Execute [("id", VInt uid)]; Commit]
         [(ERROR, "Error updating user profile: MissingGreenlet: greenlet_spawn has not been called")]
         (view s) p ∅ s).
Proof.
  intros Hg Hl Hp Hfalsy Hu Hex Hfs.
  unfold update_user_profile, try_except. unfold bind at 1.
  rewrite (get_by_id_ok uid s Hfs).
  unfold found. rewrite Hu, Hg, Hl, Hp.
  destruct s as [r p fs tr lg en ld ex].
  unfold view in Hu. cbn [rows pending faults expire_on_commit] in Hu, Hfs, Hex.
  subst ex.
  assert (Hb : bool_decide (uid ∈ (∅ : gset Z)) = false).
  { apply bool_decide_eq_false_2, not_elem_of_empty. }
  unfold_session. rewrite ?Hb.
  destruct (truthy github); reduce_session;
    destruct (truthy linkedin); reduce_session;
    destruct (truthy photo); reduce_session;
    try discriminate Hfalsy;
    (destruct fs as [|[?|] [|[?|] fs]]; try done);
    reduce_session; cbn [is_Exception exn_str]; eexists; reflexivity.
Qed.

(** X8: on an object that has the three link attributes, a user found by
    id and a database that answers, what [update_user_profile] does
    depends on the session. If the session keeps entities loaded after a
    commit ([expire_on_commit=False]), or if the three new links are truthy,
    the method returns the user and commits, for each link, the new value
    when it is truthy and the stored value otherwise; nothing else changes.
    If the session expires entities on commit (the default) and one of the
    new links is falsy, reading the stored link raises after the commit of
    [get_by_id]: the method returns [None] and the table is not written. *)
Theorem update_user_profile_keeps_or_fails (uid : Z) (o : Instance)
    (s : Session) (u : User) (github linkedin photo : value) :
  getattr o "github_link" = Ok github ->
  getattr o "linkedin_link" = Ok linkedin ->
  getattr o "profile_photo_url" = Ok photo ->
  view s !! uid = Some u ->
  fault_free 4 (faults s) = true ->
  (expire_on_commit s = false
   \/ (truthy github = true /\ truthy linkedin = true /\ truthy photo = true)
   ->
   (update_user_profile uid o s).1 = Ok (Some uid)
   /\ (exists u', rows (update_user_profile uid o s).2 !! uid = Some u'
        /\ github_link u' = (if truthy github then github else github_link u)
        /\ linkedin_link u'
           = (if truthy linkedin then linkedin else linkedin_link u)
        /\ profile_photo_url u'
           = (if truthy photo then photo else profile_photo_url u)
        /\ email u' = email u /\ hashed_password u' = hashed_password u
        /\ role u' = role u /\ is_pro u' = is_pro u)
   /\ (forall k, k <> uid ->
         rows (update_user_profile uid o s).2 !! k = view s !! k))
  /\ (expire_on_commit s = true ->
      truthy github && truthy linkedin && truthy photo = false ->
      (update_user_profile uid o s).1 = Ok None
      /\ rows (update_user_profile uid o s).2 = view s
      /\ trace (update_user_profile uid o s).2
         = trace s ++ [Execute [("id", VInt uid)]; Commit]).
Proof.
  intros Hg Hl Hp Hu Hfs. split.
  - intros Hcase.
    assert (Hrun : exists l,
      update_user_profile uid o s
      = (Ok (Some uid),
         after 4 [Execute [("id", VInt uid)]; Commit; Commit; Refresh uid] []
           (<[uid := set_profile_photo_url (py_or photo (profile_photo_url u))
                       (set_linkedin_link (py_or linkedin (linkedin_link u))
                          (set_github_link (py_or github (github_link u))
                             u))]> (view s)) ∅ l s)).
    { destruct Hcase as [Hex | (Tg & Tl & Tp)].
      - by apply update_user_profile_merge.
      - unfold py_or. rewrite Tg, Tl, Tp.
        by apply update_user_profile_all_truthy. }
    destruct Hrun as [l ->].
    unfold after. cbn [fst snd rows]. split; [done|]. split.
    + eexists. rewrite lookup_insert_eq. split; [reflexivity|].
      by repeat split.
    + intros k Hk. by rewrite lookup_insert_ne.
  - intros Hex Hfalsy.
    destruct (update_user_profile_expired_read uid o s u _ _ _ Hg Hl Hp
                Hfalsy Hu Hex (fault_free_le 4 2 _ ltac:(lia) Hfs))
      as [p ->].
    by unfold after.
Qed.

Lemma update_user_profile_keeps_or_fails_witness :
  (exists u',
     rows (update_user_profile 1
             (profile_links (VStr (py "https://github.com/jd")) (VStr [])
                VNone)
             one_user_no_expiry).2 !! 1%Z = Some u'
     /\ github_link u' = VStr (py "https://github.com/jd")
     /\ linkedin_link u' = VStr (py "https://linkedin.com/in/johndoe"))
  /\ (update_user_profile 1
        (profile_links (VStr (py "https://github.com/jd")) (VStr []) VNone)
        one_user).1 = Ok None.
Proof.
  split.
  - destruct (proj1 (update_user_profile_keeps_or_fails 1
                       (profile_links (VStr (py "https://github.com/jd"))
                          (VStr []) VNone)
                       one_user_no_expiry johndoe _ _ _
                       eq_refl eq_refl eq_refl eq_refl eq_refl)
                (or_introl eq_refl))
      as (_ & (u' & Hu' & Hg & Hl & _) & _).
    exists u'. split; [exact Hu'|]. split; [exact Hg | exact Hl].
  - exact (proj1 (proj2 (update_user_profile_keeps_or_fails 1
                           (profile_links (VStr (py "https://github.com/jd"))
                              (VStr []) VNone)
                           one_user johndoe _ _ _
                           eq_refl eq_refl eq_refl eq_refl eq_refl)
                    eq_refl eq_refl)).
Defined.

(** ** [create_user] on any object with the attributes it reads *)

Lemma next_id_above (m : gmap Z User) (k : Z) :
  is_Some (m !! k) -> (k < next_id m)%Z.
Proof.
  unfold next_id.
  induction m as [|i x m Hi Hfold IH] using map_first_key_ind.
  - intros [? H]. by rewrite lookup_empty in H.
  - rewrite map_fold_insert_first_key by done. intros Hk.
    destruct (decide (k = i)) as [->|Hne]; [lia|].
    rewrite lookup_insert_ne in Hk by done. specialize (IH Hk). lia.
Qed.

Lemma next_id_fresh (m : gmap Z User) : m !! next_id m = None.
Proof.
  destruct (m !! next_id m) eqn:H; [|done].
  assert (next_id m < next_id m)%Z by (apply next_id_above; eauto). lia.
Qed.

Lemma create_user_run
    (hash_password : value -> result value)
    (generate_verification_token generate_nickname : nat -> result value)
    (o : Instance) (s : Session)
    (email_ password github linkedin photo hashed token nick : value) :
  getattr o "password" = Ok password ->
  getattr o "email" = Ok email_ ->
  getattr o "github_link" = Ok github ->
  getattr o "linkedin_link" = Ok linkedin ->
  getattr o "profile_photo_url" = Ok photo ->
  hash_password password = Ok hashed ->
  generate_verification_token (entropy s) = Ok token ->
  generate_nickname (S (entropy s)) = Ok nick ->
  fault_free 2 (faults s) = true ->
  create_user hash_password generate_verification_token generate_nickname o s
  = (Ok (Some (next_id (view s))),
     {| rows :=
          <[next_id (view s) :=
              {| email := email_; hashed_password := hashed; nickname := nick;
                 first_name := VNone; last_name := VNone; bio := VNone;
                 github_link := github; linkedin_link := linkedin;
                 profile_photo_url := photo; role := USER; is_pro := false;
                 verification_token := token; created_at := VNone;
                 updated_at := VNone |}]> (view s);
        pending := ∅;
        faults := drop 2 (faults s);
        trace := trace s ++ [Add (next_id (view s)); Commit;
                             Refresh (next_id (view s))];
        log := log s; entropy := S (S (entropy s));
        loaded := expire s (loaded s ∪ {[ next_id (view s) ]})
                  ∪ {[ next_id (view s) ]};
        expire_on_commit := expire_on_commit s |}).
Proof.
  intros Hpw He Hg Hl Hp Hh Ht Hn Hfs.
  unfold create_user. rewrite Hpw, He, Hg, Hl, Hp.
  destruct s as [r p fs tr lg en ld ex]. cbn [entropy faults] in Ht, Hn, Hfs.
  unfold_session. rewrite Hh. cbn [rows pending faults trace log entropy loaded expire_on_commit].
  rewrite Ht. cbn [rows pending faults trace log entropy loaded expire_on_commit].
  rewrite Hn.
  destruct fs as [|[?|] [|[?|] fs]]; try done; reduce_session; reflexivity.
Qed.

(** X9: on an object that has the five attributes [create_user] reads, with
    helpers and database that answer, the method returns a new user: its
    key was not in use, its role is [USER] whatever the object says about a
    role, its password is the hash and not the plaintext attribute, its
    token and nickname are the generated ones, it is not pro; every user
    that was there is unchanged. *)
Theorem create_user_stores_default_role
    (hash_password : value -> result value)
    (generate_verification_token generate_nickname : nat -> result value)
    (o : Instance) (s : Session)
    (email_ password github linkedin photo hashed token nick : value) :
  getattr o "password" = Ok password ->
  getattr o "email" = Ok email_ ->
  getattr o "github_link" = Ok github ->
  getattr o "linkedin_link" = Ok linkedin ->
  getattr o "profile_photo_url" = Ok photo ->
  hash_password password = Ok hashed ->
  generate_verification_token (entropy s) = Ok token ->
  generate_nickname (S (entropy s)) = Ok nick ->
  fault_free 2 (faults s) = true ->
  let out := create_user hash_password generate_verification_token
               generate_nickname o s in
  exists k u,
    out.1 = Ok (Some k)
    /\ view s !! k = None
    /\ rows out.2 !! k = Some u
    /\ role u = USER /\ is_pro u = false
    /\ hashed_password u = hashed /\ email u = email_
    /\ verification_token u = token /\ nickname u = nick
    /\ github_link u = github /\ linkedin_link u = linkedin
    /\ profile_photo_url u = photo
    /\ (forall j v, view s !! j = Some v -> rows out.2 !! j = Some v).
Proof.
  intros Hpw He Hg Hl Hp Hh Ht Hn Hfs out. subst out.
  rewrite (create_user_run _ _ _ o s _ _ _ _ _ _ _ _
             Hpw He Hg Hl Hp Hh Ht Hn Hfs).
  cbn [fst snd rows].
  eexists _, _. split; [reflexivity|]. split; [apply next_id_fresh|].
  split; [apply lookup_insert_eq|]. do 9 (split; [reflexivity|]).
  intros j v Hj. rewrite lookup_insert_ne; [done|].
  intros <-. by rewrite next_id_fresh in Hj.
Qed.

Lemma create_user_stores_default_role_witness :
  exists k u,
    (create_user example_hash example_token example_nickname
       (signup (VStr (py "a@b.com")) (VStr (py "Secure*1234"))
          VNone VNone VNone) one_user).1 = Ok (Some k)
    /\ rows (create_user example_hash example_token example_nickname
               (signup (VStr (py "a@b.com")) (VStr (py "Secure*1234"))
                  VNone VNone VNone) one_user).2 !! k = Some u
    /\ role u = USER
    /\ hashed_password u = VStr (py "$2b$4321*eruceS").
Proof.
  destruct (create_user_stores_default_role example_hash example_token
              example_nickname
              (signup (VStr (py "a@b.com")) (VStr (py "Secure*1234"))
                 VNone VNone VNone) one_user
              _ _ _ _ _ _ _ _
              eq_refl eq_refl eq_refl eq_refl eq_refl eq_refl eq_refl eq_refl
              eq_refl)
    as (k & u & H1 & _ & H2 & H3 & _ & H4 & _).
  exists k, u. split; [exact H1|]. split; [exact H2|].
  split; [exact H3 | exact H4].
Defined.

(** ** What [validate_url] accepts *)

Lemma validate_url_accepts (s : pystr) (r : option pystr) :
  validate_url (Some s) = Ok r -> url_shape s.
Proof.
  rewrite validate_url_Some.
  destruct (Re.match_nodes url_nodes 0 s) eqn:Hm; [|done].
  intros _. by apply url_regex_shape, matches_url_regex.
Qed.

Lemma url_shape_accepted (s : pystr) :
  url_shape s -> validate_url (Some s) = Ok (Some s).
Proof.
  intros H. apply url_regex_shape, matches_url_regex in H.
  by rewrite validate_url_Some, H.
Qed.

Lemma newline_is_space : Re.is_space Re.newline = true.
Proof. reflexivity. Qed.

(** X10: a string that [validate_url] accepts begins with [http://] or
    [https://], has at least two characters after it, and contains no
    newline except possibly as its last character. *)
Theorem validate_url_accepted_form (s : pystr) (r : option pystr) :
  validate_url (Some s) = Ok r ->
  (exists rest, s = py "http://" ++ rest \/ s = py "https://" ++ rest)
  /\ (9 <= length s)%nat
  /\ (exists body, (s = body \/ s = body ++ [Re.newline])
                   /\ Re.newline ∉ body).
Proof.
  intros H. apply validate_url_accepts in H.
  destruct H as (scheme & first & second & rest & tail & -> & Hscheme & Hsp
                 & Hnot & Hnl & Hrest & Htail).
  assert (Hfirst : first <> Re.newline).
  { intros ->. by rewrite newline_is_space in Hsp. }
  assert (Hr : Re.newline ∉ rest).
  { intros Hin. rewrite Forall_forall in Hrest.
    specialize (Hrest _ Hin). by rewrite newline_is_space in Hrest. }
  split; [|split].
  - exists (first :: second :: rest ++ tail).
    destruct Hscheme as [-> | ->]; [by left | by right].
  - destruct Hscheme as [-> | ->]; simpl; lia.
  - exists (scheme ++ py "://" ++ first :: second :: rest). split.
    + destruct Htail as [-> | ->].
      * left. by rewrite app_nil_r.
      * right. by rewrite <- !app_assoc.
    + rewrite !elem_of_app, !elem_of_cons.
      intros [Hin | [Hin | [Hin | [Hin | Hin]]]].
      * destruct Hscheme as [-> | ->];
          apply list_elem_of_In in Hin; simpl in Hin;
          unfold Re.newline in Hin; intuition discriminate.
      * apply list_elem_of_In in Hin; simpl in Hin;
          unfold Re.newline in Hin; intuition discriminate.
      * by apply Hfirst.
      * by apply Hnl.
      * by apply Hr.
Qed.

Lemma validate_url_accepted_form_witness :
  (exists rest, py "https://github.com/johndoe" = py "http://" ++ rest
                \/ py "https://github.com/johndoe" = py "https://" ++ rest)
  /\ (9 <= length (py "https://github.com/johndoe"))%nat.
Proof.
  destruct (validate_url_accepted_form (py "https://github.com/johndoe") _
              eq_refl) as (H1 & H2 & _).
  by split.
Defined.

(** X11: [$] lets a final newline through: when [validate_url] accepts a
    string that does not end with a newline, it accepts the string followed
    by a newline as well, and returns it with the newline. *)
Theorem validate_url_trailing_newline_accepted (s : pystr)
    (r : option pystr) :
  validate_url (Some s) = Ok r ->
  last s <> Some Re.newline ->
  validate_url (Some (s ++ [Re.newline])) = Ok (Some (s ++ [Re.newline])).
Proof.
  intros H Hlast. apply validate_url_accepts in H.
  destruct H as (scheme & first & second & rest & tail & -> & Hscheme & Hsp
                 & Hnot & Hnl & Hrest & Htail).
  apply url_shape_accepted.
  destruct Htail as [-> | ->].
  - exists scheme, first, second, rest, [Re.newline].
    rewrite app_nil_r. repeat split; try done.
    + by rewrite <- !app_assoc.
    + by right.
  - exfalso. apply Hlast.
    replace (scheme ++ py "://" ++ first :: second :: rest ++ [Re.newline])
      with ((scheme ++ py "://" ++ first :: second :: rest) ++ [Re.newline])
      by (by rewrite <- !app_assoc).
    by rewrite last_snoc.
Qed.

Lemma validate_url_trailing_newline_accepted_witness :
  validate_url (Some (py "http://example.com" ++ [Re.newline]))
  = Ok (Some (py "http://example.com" ++ [Re.newline])).
Proof.
  apply (validate_url_trailing_newline_accepted (py "http://example.com")
           (Some (py "http://example.com")) eq_refl).
  discriminate.
Defined.

(** X12: the character after the first one of the host is matched by [.],
    so that any character but a newline is accepted there, a space or a tab
    included. *)
Theorem validate_url_second_character (first second : N) (rest : pystr) :
  Re.is_space first = false ->
  first ∉ py "/$.?#" ->
  second <> Re.newline ->
  Forall (fun c => Re.is_space c = false) rest ->
  validate_url (Some (py "http://" ++ first :: second :: rest))
  = Ok (Some (py "http://" ++ first :: second :: rest))
  /\ validate_url (Some (py "https://" ++ first :: second :: rest))
     = Ok (Some (py "https://" ++ first :: second :: rest)).
Proof.
  intros Hsp Hnot Hnl Hrest.
  split; apply url_shape_accepted.
  - exists (py "http"), first, second, rest, [].
    rewrite app_nil_r. repeat split; try done; by left.
  - exists (py "https"), first, second, rest, [].
    rewrite app_nil_r. repeat split; try done; [by right | by left].
Qed.

Lemma validate_url_second_character_witness :
  validate_url (Some (py "http://a b")) = Ok (Some (py "http://a b")).
Proof.
  refine (proj1 (validate_url_second_character 97 32 [98%N] _ _ _ _)).
  - reflexivity.
  - rewrite list_elem_of_In. simpl. intuition discriminate.
  - discriminate.
  - by repeat constructor.
Defined.

(** ** Fields and validators of the models *)

Lemma validate_fields_each
    (core_validate : FieldInfo -> value -> result value) (c : ModelClass)
    (input : string -> option value) (fs : list FieldInfo)
    (m : gmap string value) (f : FieldInfo) :
  validate_fields core_validate c input fs = Ok m ->
  f ∈ fs ->
  exists v, validate_field core_validate c input f = Ok v.
Proof.
  revert m. induction fs as [|g fs IH]; intros m H Hin.
  - by apply elem_of_nil in Hin.
  - simpl in H.
    destruct (validate_field core_validate c input g) as [v|e] eqn:Hg;
      [|done].
    destruct (validate_fields core_validate c input fs) as [m'|e] eqn:Hfs;
      [|done].
    apply elem_of_cons in Hin as [->|Hin]; [by exists v|].
    by apply (IH m').
Qed.

Lemma validate_fields_lookup
    (core_validate : FieldInfo -> value -> result value) (c : ModelClass)
    (input : string -> option value) (fs : list FieldInfo)
    (m : gmap string value) (f : FieldInfo) (v : value) :
  NoDup (List.map f_name fs) ->
  validate_fields core_validate c input fs = Ok m ->
  f ∈ fs ->
  validate_field core_validate c input f = Ok v ->
  m !! f_name f = Some v.
Proof.
  revert m. induction fs as [|g fs IH]; intros m Hnd H Hin Hv.
  - by apply elem_of_nil in Hin.
  - simpl in H, Hnd. apply NoDup_cons in Hnd as [Hg Hnd].
    destruct (validate_field core_validate c input g) as [w|e] eqn:Hgv;
      [|done].
    destruct (validate_fields core_validate c input fs) as [m'|e] eqn:Hfs;
      [|done].
    injection H as <-.
    apply elem_of_cons in Hin as [->|Hin].
    + rewrite lookup_insert_eq. congruence.
    + rewrite lookup_insert_ne; [by apply IH|].
      intros Heq. apply Hg. rewrite Heq.
      apply list_elem_of_fmap. by exists f.
Qed.

Lemma construct_UserCreate_fields
    (core_validate : FieldInfo -> value -> result value)
    (values : gmap string value) (o : Instance) :
  construct core_validate UserCreate values = Ok o ->
  validate_fields core_validate UserCreate (fun n => values !! n)
    (cls_fields UserCreate) = Ok (inst_attrs o).
Proof.
  unfold construct.
  change (cls_root_validators UserCreate) with
    (@nil (gmap string value -> result (gmap string value))).
  cbn [run_root_validators].
  destruct (validate_fields _ _ _ _) as [m|e]; [|done].
  by intros [= <-].
Qed.

(** X13: the URL fields of [UserCreate] are checked by [validate_url]
    before the core sees them: a value that is not a string (and not
    [None]) is a [TypeError], not a validation error, and a string of the
    wrong shape is the validation error "Invalid URL format", whatever the
    core would have said. *)
Theorem url_field_rejections
    (core_validate : FieldInfo -> value -> result value)
    (input : string -> option value) (f : FieldInfo) :
  f_name f ∈ url_fields ->
  (forall v, input (f_name f) = Some v -> not_a_string v = true ->
     validate_field core_validate UserCreate input f
     = Raise (TypeError "expected string or bytes-like object"))
  /\ (forall s, input (f_name f) = Some (VStr s) -> ~ url_shape s ->
     validate_field core_validate UserCreate input f
     = Raise (ValidationError "Invalid URL format")).
Proof.
  intros Hname.
  assert (Hrun : forall v,
    run_validators (cls_validators UserCreate) (f_name f) false v
    = match as_validation_error (validate_url_raw v) with
      | Ok v' => Ok v'
      | Raise e => Raise e
      end).
  { intros v. unfold url_fields in Hname.
    repeat (apply elem_of_cons in Hname as [->|Hname]; [reflexivity|]).
    by apply elem_of_nil in Hname. }
  split.
  - intros v Hin Hv. unfold validate_field. rewrite Hin, Hrun.
    by destruct v.
  - intros s Hin Hs. unfold validate_field. rewrite Hin, Hrun.
    unfold validate_url_raw. rewrite validate_url_Some.
    destruct (Re.match_nodes url_nodes 0 s) eqn:Hm; [|done].
    exfalso. by apply Hs, url_regex_shape, matches_url_regex.
Qed.

Lemma url_field_rejections_witness :
  validate_field accept_all UserCreate
    (fun n => ({[ "github_profile_url" := VInt 42 ]} : gmap string value) !! n)
    (optional "github_profile_url" TStr VNone)
  = Raise (TypeError "expected string or bytes-like object")
  /\ validate_field accept_all UserCreate
       (fun n => ({[ "github_profile_url" := VStr (py "github.com/jd") ]}
                  : gmap string value) !! n)
       (optional "github_profile_url" TStr VNone)
     = Raise (ValidationError "Invalid URL format").
Proof.
  split.
  - apply (proj1 (url_field_rejections accept_all _
                    (optional "github_profile_url" TStr VNone)
                    ltac:(vm_compute; set_solver)) (VInt 42));
      reflexivity.
  - apply (proj2 (url_field_rejections accept_all _
                    (optional "github_profile_url" TStr VNone)
                    ltac:(vm_compute; set_solver)) (py "github.com/jd"));
      [reflexivity|].
    intros H. apply url_regex_shape, matches_url_regex in H. discriminate H.
Defined.

(** X14: every [UserCreate] that the constructor returns was given, for
    each of its three URL fields, nothing, [None], or a string of the shape
    that [url_regex] describes. *)
Theorem UserCreate_urls_are_valid
    (core_validate : FieldInfo -> value -> result value)
    (values : gmap string value) (o : Instance) (name : string) (v : value) :
  construct core_validate UserCreate values = Ok o ->
  name ∈ url_fields ->
  values !! name = Some v ->
  v = VNone \/ exists s, v = VStr s /\ url_shape s.
Proof.
  intros Ho Hname Hv. apply construct_UserCreate_fields in Ho.
  set (f := optional name TStr VNone).
  assert (Hf : f ∈ cls_fields UserCreate).
  { subst f. unfold url_fields in Hname.
    repeat (apply elem_of_cons in Hname as [->|Hname];
            [apply list_elem_of_In; vm_compute; tauto|]).
    by apply elem_of_nil in Hname. }
  destruct (validate_fields_each _ _ _ _ _ f Ho Hf) as [w Hw].
  destruct (url_field_rejections core_validate (fun n => values !! n) f Hname)
    as [Htype Hshape].
  destruct v as [| | |s| |]; try (by left);
    try (rewrite (Htype _ Hv eq_refl) in Hw; discriminate Hw).
  right. exists s. split; [done|].
  destruct (Re.match_nodes url_nodes 0 s) eqn:Hm.
  - by apply url_regex_shape, matches_url_regex.
  - rewrite (Hshape s Hv) in Hw; [discriminate Hw|].
    intros H. apply url_regex_shape, matches_url_regex in H. congruence.
Qed.

Lemma UserCreate_urls_are_valid_witness :
  let values : gmap string value :=
    <["github_profile_url" := VStr (py "https://github.com/jd")]>
      create_payload in
  exists o, construct accept_all UserCreate values = Ok o
            /\ url_shape (py "https://github.com/jd").
Proof.
  intros values.
  destruct (construct accept_all UserCreate values) as [o|e] eqn:Ho;
    [|by vm_compute in Ho].
  exists o. split; [done|].
  destruct (UserCreate_urls_are_valid accept_all values o
              "github_profile_url" (VStr (py "https://github.com/jd")) Ho)
    as [H|(s & [= <-] & Hs)]; [vm_compute; set_solver | reflexivity | | ].
  - discriminate H.
  - exact Hs.
Defined.

Lemma validate_field_required
    (core_validate : FieldInfo -> value -> result value) (c : ModelClass)
    (input : string -> option value) (f : FieldInfo) (v : value) :
  validate_field core_validate c input f = Ok v ->
  f_default f = None ->
  is_Some (input (f_name f)).
Proof.
  unfold validate_field. intros H Hd.
  destruct (input (f_name f)); [eauto|]. by rewrite Hd in H.
Qed.

(** X15: a [UserCreate] cannot be constructed without [email], [password]
    and [role], and a [UserResponse] cannot be built from an object that
    lacks [email], [role], [id], [created_at] or [updated_at], whatever the
    core accepts. *)
Theorem required_fields
    (core_validate : FieldInfo -> value -> result value) :
  (forall values o,
     construct core_validate UserCreate values = Ok o ->
     is_Some (values !! "email") /\ is_Some (values !! "password")
     /\ is_Some (values !! "role"))
  /\ (forall obj o,
     from_attributes core_validate UserResponse obj = Ok o ->
     is_Some (obj "email") /\ is_Some (obj "role") /\ is_Some (obj "id")
     /\ is_Some (obj "created_at") /\ is_Some (obj "updated_at")).
Proof.
  split.
  - intros values o Ho. apply construct_UserCreate_fields in Ho.
    assert (Hreq : forall name t,
      required name t ∈ cls_fields UserCreate -> is_Some (values !! name)).
    { intros name t Hin.
      destruct (validate_fields_each _ _ _ _ _ _ Ho Hin) as [v Hv].
      by apply (validate_field_required _ _ _ _ _ Hv). }
    split; [|split].
    + apply (Hreq "email" TEmailStr), list_elem_of_In. vm_compute. tauto.
    + apply (Hreq "password" TStr), list_elem_of_In. vm_compute. tauto.
    + apply (Hreq "role" TUserRole), list_elem_of_In. vm_compute. tauto.
  - intros obj o Ho. unfold from_attributes in Ho.
    destruct (validate_fields core_validate UserResponse obj
                (cls_fields UserResponse)) as [m|e] eqn:Hm; [|done].
    assert (Hreq : forall name t,
      required name t ∈ cls_fields UserResponse -> is_Some (obj name)).
    { intros name t Hin.
      destruct (validate_fields_each _ _ _ _ _ _ Hm Hin) as [v Hv].
      by apply (validate_field_required _ _ _ _ _ Hv). }
    split; [|split; [|split; [|split]]].
    + apply (Hreq "email" TEmailStr), list_elem_of_In. vm_compute. tauto.
    + apply (Hreq "role" TUserRole), list_elem_of_In. vm_compute. tauto.
    + apply (Hreq "id" TUUID), list_elem_of_In. vm_compute. tauto.
    + apply (Hreq "created_at" TDatetime), list_elem_of_In. vm_compute. tauto.
    + apply (Hreq "updated_at" TDatetime), list_elem_of_In. vm_compute. tauto.
Qed.

Lemma required_fields_witness :
  is_Some (create_payload !! "email")
  /\ is_Some (create_payload !! "password")
  /\ is_Some (create_payload !! "role").
Proof.
  apply (proj1 (required_fields accept_all) create_payload create_request).
  reflexivity.
Defined.

(** A create request without password is refused; the update class, by
    contrast, requires nothing. *)
Example UserCreate_without_password :
  construct accept_all UserCreate
    {[ "email" := VStr (py "a@b.com"); "role" := VEnum USER ]}
  = Raise (ValidationError "Field required: password").
Proof. reflexivity. Qed.

(** ** [strip_whitespace] *)

Lemma lstrip_split (s : pystr) :
  exists pre, s = pre ++ lstrip s
              /\ Forall (fun c => Re.is_space c = true) pre.
Proof.
  induction s as [|c s (pre & Hs & Hpre)]; simpl.
  - by exists [].
  - destruct (Re.is_space c) eqn:Hc.
    + exists (c :: pre). split; [simpl; congruence | by constructor].
    + by exists [].
Qed.

Lemma lstrip_head (s : pystr) (c : N) :
  head (lstrip s) = Some c -> Re.is_space c = false.
Proof.
  induction s as [|d s IH]; simpl; [done|].
  destruct (Re.is_space d) eqn:Hd; [done|]. simpl. by intros [= <-].
Qed.

Lemma last_rev_head {A} (l : list A) : last (rev l) = head l.
Proof. destruct l as [|a l]; [done|]. simpl. by rewrite last_snoc. Qed.

Lemma head_rev_last {A} (l : list A) : head (rev l) = last l.
Proof. by rewrite <- last_rev_head, rev_involutive. Qed.

Lemma lstrip_last (s : pystr) (c : N) :
  last (lstrip s) = Some c -> last s = Some c.
Proof.
  destruct (lstrip_split s) as (pre & Hs & _). intros H.
  rewrite Hs. rewrite last_app. by rewrite H.
Qed.

(** [strip] removes a run of whitespace at each end and leaves a string
    that neither begins nor ends with whitespace. *)
Lemma strip_spec (s : pystr) :
  (exists pre post, s = pre ++ strip s ++ post
     /\ Forall (fun c => Re.is_space c = true) pre
     /\ Forall (fun c => Re.is_space c = true) post)
  /\ (forall c, head (strip s) = Some c -> Re.is_space c = false)
  /\ (forall c, last (strip s) = Some c -> Re.is_space c = false).
Proof.
  unfold strip.
  destruct (lstrip_split s) as (pre & Hs & Hpre).
  destruct (lstrip_split (rev (lstrip s))) as (post & Hr & Hpost).
  split; [|split].
  - exists pre, (rev post). split; [|split; [done|]].
    + rewrite <- rev_app_distr, <- Hr, rev_involutive. exact Hs.
    + by apply Forall_rev.
  - intros c. rewrite head_rev_last. intros H.
    apply lstrip_last in H. rewrite last_rev_head in H.
    by apply lstrip_head in H.
  - intros c. rewrite last_rev_head. apply lstrip_head.
Qed.

(** X16: in the class bound to [UserUpdate], a string given for [name],
    [bio] or [location] is stripped before the core sees it, so that the
    length limits apply to the stripped string; the stripped string is the
    given one without a run of whitespace at each end, and it neither
    begins nor ends with whitespace. *)
Theorem UserUpdate_strips_before_validation
    (core_validate : FieldInfo -> value -> result value)
    (input : string -> option value) (f : FieldInfo) (s : pystr) :
  f_name f ∈ stripped_fields ->
  input (f_name f) = Some (VStr s) ->
  validate_field core_validate UserUpdate input f
  = as_validation_error (validate_type core_validate f (VStr (strip s)))
  /\ (exists pre post, s = pre ++ strip s ++ post
        /\ Forall (fun c => Re.is_space c = true) pre
        /\ Forall (fun c => Re.is_space c = true) post)
  /\ (forall c, head (strip s) = Some c -> Re.is_space c = false)
  /\ (forall c, last (strip s) = Some c -> Re.is_space c = false).
Proof.
  intros Hname Hin. split; [|apply strip_spec].
  unfold validate_field. rewrite Hin.
  unfold stripped_fields in Hname.
  repeat (apply elem_of_cons in Hname as [->|Hname]; [reflexivity|]).
  by apply elem_of_nil in Hname.
Qed.

Lemma UserUpdate_strips_before_validation_witness :
  validate_field accept_all UserUpdate
    (fun n => ({[ "name" := VStr (py "  John Doe ") ]} : gmap string value)
              !! n)
    (with_max_length 50 (optional "name" TStr VNone))
  = Ok (VStr (py "John Doe")).
Proof.
  refine (eq_trans
            (proj1 (UserUpdate_strips_before_validation accept_all _
                      (with_max_length 50 (optional "name" TStr VNone))
                      (py "  John Doe ") _ _)) _).
  - vm_compute. set_solver.
  - reflexivity.
  - reflexivity.
Defined.

(** ** Keys that are not fields *)

Lemma validate_fields_all_absent
    (core_validate : FieldInfo -> value -> result value) (c : ModelClass)
    (input : string -> option value) (fs : list FieldInfo) :
  Forall (fun f => input (f_name f) = None
                   /\ has_always (cls_validators c) (f_name f) = false
                   /\ f_default f = Some VNone) fs ->
  exists m, validate_fields core_validate c input fs = Ok m
            /\ forall f, f ∈ fs -> m !! f_name f = Some VNone.
Proof.
  induction 1 as [|f fs (Hin & Hal & Hd) _ (m & Hm & Hall)]; simpl.
  - exists ∅. split; [done|]. intros f Hf. by apply elem_of_nil in Hf.
  - unfold validate_field. rewrite Hin, Hd, Hal, Hm.
    eexists. split; [reflexivity|].
    intros g Hg. apply elem_of_cons in Hg as [->|Hg].
    + apply lookup_insert_eq.
    + destruct (decide (f_name f = f_name g)) as [Heq|Hne].
      * rewrite Heq. apply lookup_insert_eq.
      * rewrite lookup_insert_ne by done. by apply Hall.
Qed.

(** X17: the check of the first [UserUpdate] looks at every submitted
    value, fields or not: a payload whose only entry is a truthy value under
    a key that is not a field passes it, and the constructor returns an
    update in which every field is [None]. *)
Theorem first_UserUpdate_unknown_key
    (core_validate : FieldInfo -> value -> result value)
    (key : string) (v : value) :
  key ∉ field_names UserUpdate_first ->
  truthy v = true ->
  exists o, construct core_validate UserUpdate_first {[ key := v ]} = Ok o
            /\ forall name, name ∈ field_names UserUpdate_first ->
                            getattr o name = Ok VNone.
Proof.
  intros Hkey Hv. unfold construct.
  change (cls_root_validators UserUpdate_first)
    with [check_at_least_one_value].
  cbn [run_root_validators].
  rewrite (check_at_least_one_value_truthy {[ key := v ]}).
  2:{ exists key, v. split; [apply lookup_singleton_eq | done]. }
  cbn [as_validation_error run_root_validators].
  destruct (validate_fields_all_absent core_validate UserUpdate_first
              (fun n => ({[ key := v ]} : gmap string value) !! n)
              (cls_fields UserUpdate_first)) as (m & -> & Hm).
  { apply Forall_forall. intros f Hf. split.
    - apply lookup_singleton_ne. intros ->. apply Hkey.
      apply list_elem_of_fmap. by exists f.
    - revert f Hf. apply Forall_forall. by vm_compute; repeat constructor. }
  eexists. split; [reflexivity|].
  intros name Hname. apply list_elem_of_fmap in Hname as (f & -> & Hf).
  unfold getattr. cbn [inst_attrs]. by rewrite (Hm f Hf).
Qed.

Lemma first_UserUpdate_unknown_key_witness :
  exists o, construct accept_all UserUpdate_first
              {[ "github_link" := VStr (py "https://github.com/jd") ]} = Ok o
            /\ getattr o "github_profile_url" = Ok VNone.
Proof.
  destruct (first_UserUpdate_unknown_key accept_all "github_link"
              (VStr (py "https://github.com/jd")))
    as (o & Ho & Hnone).
  - rewrite list_elem_of_In. vm_compute. intuition discriminate.
  - reflexivity.
  - exists o. split; [exact Ho|]. apply Hnone.
    apply list_elem_of_In. vm_compute. tauto.
Defined.

(** ** A response built from an entity *)

Lemma UserResponse_NoDup : NoDup (List.map f_name (cls_fields UserResponse)).
Proof. apply (bool_decide_unpack _). by vm_compute. Qed.

(** X18: [UserResponse] reads [is_professional], [github_profile_url],
    [linkedin_profile_url] and [profile_picture_url]. An object without
    these attributes, as is an entity whose attributes bear the names the
    service writes ([is_pro], [github_link], [linkedin_link],
    [profile_photo_url]), gives a response with [is_professional = False]
    and no URL, whatever its flag and links are. *)
Theorem UserResponse_of_entity
    (core_validate : FieldInfo -> value -> result value)
    (k : Z) (u : User) (o : Instance) :
  from_attributes core_validate UserResponse (user_attr k u) = Ok o ->
  getattr o "is_professional" = Ok (VBool false)
  /\ getattr o "github_profile_url" = Ok VNone
  /\ getattr o "linkedin_profile_url" = Ok VNone
  /\ getattr o "profile_picture_url" = Ok VNone.
Proof.
  unfold from_attributes.
  destruct (validate_fields core_validate UserResponse (user_attr k u)
              (cls_fields UserResponse)) as [m|e] eqn:Hm; [|done].
  intros [= <-]. unfold getattr. cbn [inst_attrs].
  assert (Hget : forall f d,
    f ∈ cls_fields UserResponse ->
    validate_field core_validate UserResponse (user_attr k u) f = Ok d ->
    m !! f_name f = Some d).
  { intros f d Hf Hd.
    exact (validate_fields_lookup _ _ _ _ _ f d UserResponse_NoDup Hm Hf Hd). }
  assert (H1 : m !! "is_professional" = Some (VBool false)).
  { apply (Hget (optional "is_professional" TBool (VBool false)));
      [apply list_elem_of_In; vm_compute; tauto | reflexivity]. }
  assert (H2 : m !! "github_profile_url" = Some VNone).
  { apply (Hget (optional "github_profile_url" TStr VNone));
      [apply list_elem_of_In; vm_compute; tauto | reflexivity]. }
  assert (H3 : m !! "linkedin_profile_url" = Some VNone).
  { apply (Hget (optional "linkedin_profile_url" TStr VNone));
      [apply list_elem_of_In; vm_compute; tauto | reflexivity]. }
  assert (H4 : m !! "profile_picture_url" = Some VNone).
  { apply (Hget (optional "profile_picture_url" TStr VNone));
      [apply list_elem_of_In; vm_compute; tauto | reflexivity]. }
  by rewrite H1, H2, H3, H4.
Qed.

Lemma UserResponse_of_entity_witness :
  exists o,
    from_attributes accept_all UserResponse
      (user_attr 1 (set_is_pro true johndoe)) = Ok o
    /\ getattr o "is_professional" = Ok (VBool false)
    /\ getattr o "github_profile_url" = Ok VNone.
Proof.
  destruct (from_attributes accept_all UserResponse
              (user_attr 1 (set_is_pro true johndoe))) as [o|e] eqn:Ho;
    [|by vm_compute in Ho].
  exists o. split; [done|].
  destruct (UserResponse_of_entity accept_all 1 (set_is_pro true johndoe) o Ho)
    as (H1 & H2 & _).
  by split.
Defined.
